(** * AI-Sale-Agent: the Twilio layer

    A shallow embedding of [twilio_directory/call.py] (the phone-number
    formatter of [TwilioCallManager]) and of [twilio_directory/webhook.py]
    (the Flask handlers that drive a qualification call through Twilio's
    callbacks), with the properties the specification states about them. *)

From Stdlib Require Import String Ascii List NArith Bool Arith Lia.
From ExtLib Require Import Structures.Monad.
Import ListNotations.

(* ===================================================================== *)
(** ** call.py: [TwilioCallManager._format_phone_number]                  *)
(* ===================================================================== *)

Module Call.

(** A Python [str] is a sequence of Unicode code points. *)
Definition codepoint := N.
Definition pystr := list codepoint.

(** ASCII literals of the source, as code points. *)
Definition lit (s : string) : pystr :=
  map N_of_ascii (list_ascii_of_string s).

Definition is_ascii_digit (c : codepoint) : bool :=
  ((48 <=? c) && (c <=? 57))%N.

(** [s.startswith(p)] *)
Fixpoint startswith (p s : pystr) : bool :=
  match p, s with
  | [], _ => true
  | _ :: _, [] => false
  | a :: p', b :: s' => (a =? b)%N && startswith p' s'
  end.

Section Normalizer.

(** [str.isdigit] outside ASCII is decided by the Unicode character
    database, which is not part of the repository: the table is a
    parameter.  On ASCII, [isdigit] holds exactly of '0'..'9'. *)
Variable unicode_digit : codepoint -> bool.

Definition isdigit (c : codepoint) : bool :=
  if (c <? 128)%N then is_ascii_digit c else unicode_digit c.

(** [c.isdigit() or c == '+'] *)
Definition kept (c : codepoint) : bool :=
  isdigit c || (c =? 43)%N.

Definition _format_phone_number (phone : pystr) : pystr :=
  let cleaned := filter kept phone in
  if negb (startswith (lit "+") cleaned) then
    if startswith (lit "91") cleaned && (length cleaned =? 12) then
      lit "+" ++ cleaned
    else if startswith (lit "03") cleaned && (length cleaned =? 11) then
      lit "+92" ++ skipn 1 cleaned
    else if length cleaned =? 10 then
      lit "+91" ++ cleaned
    else if (length cleaned =? 11) && startswith (lit "0") cleaned then
      lit "+92" ++ skipn 1 cleaned
    else
      lit "+" ++ cleaned
  else cleaned.

(** *** The normalizer as the specification words it (section 4.1) *)

(** "n digits": a string of exactly [n] characters, all of them digits. *)
Definition is_n_digits (n : nat) (s : pystr) : bool :=
  (length s =? n) && forallb is_ascii_digit s.

Definition normalize_spec (x : pystr) : pystr :=
  (* 1. strip all characters except digits and + *)
  let s := filter kept x in
  (* 2. already starts with +: as is *)
  if startswith (lit "+") s then s
  (* 3. 12 digits starting with 91 *)
  else if is_n_digits 12 s && startswith (lit "91") s then lit "+" ++ s
  (* 4. 11 digits starting with 03 *)
  else if is_n_digits 11 s && startswith (lit "03") s then
    lit "+92" ++ skipn 1 s
  (* 5. exactly 10 digits *)
  else if is_n_digits 10 s then lit "+91" ++ s
  (* 6. 11 digits starting with 0 *)
  else if is_n_digits 11 s && startswith (lit "0") s then
    lit "+92" ++ skipn 1 s
  (* 7. otherwise a bare + *)
  else lit "+" ++ s.

(** The inputs of the contract: digits and spaces, with an optional
    leading plus. *)
Definition digit_or_space (c : codepoint) : bool :=
  is_ascii_digit c || (c =? 32)%N.

Definition phone_input (x : pystr) : bool :=
  match x with
  | [] => true
  | c :: r => ((c =? 43)%N || digit_or_space c) && forallb digit_or_space r
  end.

End Normalizer.

End Call.

(* ===================================================================== *)
(** ** webhook.py: the callback handlers                                  *)
(* ===================================================================== *)

Module Webhook.

Import MonadNotation.
Local Open Scope string_scope.
Local Open Scope monad_scope.

(** *** Data *)

(** [request.form]: the first value of a key wins. *)
Definition Form := list (string * string).

Fixpoint form_get (key : string) (form : Form) : option string :=
  match form with
  | [] => None
  | (k, v) :: rest => if k =? key then Some v else form_get key rest
  end.

Definition form_get_default (key default : string) (form : Form) : string :=
  match form_get key form with
  | Some v => v
  | None => default
  end.

(** One element of ['conversation_history']. *)
Record Turn := mkTurn {
  speaker : string;
  message : string;
  confidence : string;
  timestamp : string
}.

(** One value of the [conversation_states] dictionary. *)
Record ConversationState := mkState {
  lead_id : string;
  call_sid : option string;
  conversation_history : list Turn;
  current_step : string;
  start_time : string;
  qualification_questions : list string
}.

(** [conversation_states]: a Python dict, kept in insertion order because
    [handle_call_status] scans [items()] and stops at the first match. *)
Definition Store := list (string * ConversationState).

Fixpoint store_get (k : string) (s : Store) : option ConversationState :=
  match s with
  | [] => None
  | (k', v) :: rest => if k' =? k then Some v else store_get k rest
  end.

(** [k in conversation_states] *)
Definition store_mem (k : string) (s : Store) : bool :=
  match store_get k s with
  | Some _ => true
  | None => false
  end.

(** [conversation_states[k] = v]: an existing key keeps its place, a new
    key goes last. *)
Fixpoint store_set (k : string) (v : ConversationState) (s : Store) : Store :=
  match s with
  | [] => [(k, v)]
  | (k', v') :: rest =>
      if k' =? k then (k', v) :: rest else (k', v') :: store_set k v rest
  end.

(** [del conversation_states[k]] on a present key. *)
Fixpoint store_del (k : string) (s : Store) : Store :=
  match s with
  | [] => []
  | (k', v') :: rest =>
      if k' =? k then rest else (k', v') :: store_del k rest
  end.

(** The dictionaries the decision function returns, read with [.get]. *)
Record GptResponse := mkGpt {
  is_final : option bool;
  qualification_result : option string;
  summary : option string;
  reason : option string;
  next_question : option string
}.

Definition get_or {A} (o : option A) (default : A) : A :=
  match o with
  | Some v => v
  | None => default
  end.

(** Truth value of [d.get('is_final')]. *)
Definition truthy (o : option bool) : bool := get_or o false.

(** A field of a lead record, as the CRM's JSON has it: a text, a null
    ([None]), or any other value, kept by the text an f-string renders it
    as. *)
Inductive FieldValue :=
| Text (s : string)
| Null
| Other (rendered : string).

(** A lead record of the CRM, read with [.get]. *)
Definition LeadInfo := list (string * FieldValue).

Fixpoint field_get (key : string) (info : LeadInfo) : option FieldValue :=
  match info with
  | [] => None
  | (k, v) :: rest => if k =? key then Some v else field_get key rest
  end.

(** [f"{v}"] *)
Definition shown (v : FieldValue) : string :=
  match v with
  | Text s => s
  | Null => "None"
  | Other rendered => rendered
  end.

(** [f"{lead_info.get(key, '')}"] *)
Definition field_shown (key : string) (info : LeadInfo) : string :=
  match field_get key info with
  | Some v => shown v
  | None => ""
  end.

(** [not lead_info]: [None] and the empty record are both false. *)
Definition lead_missing (o : option LeadInfo) : bool :=
  match o with
  | None | Some [] => true
  | Some (_ :: _) => false
  end.

(** TwiML verbs of a [VoiceResponse], in document order.  The only verb
    the source nests in a [<Gather>] is a [<Say>]. *)
Record Prompt := mkPrompt {
  text : string;
  voice : string;
  language : string
}.

Inductive Verb :=
| Say (p : Prompt)
| Gather (input language speech_timeout action method : string)
         (nested : list Prompt)
| Hangup.

Definition VoiceResponse := list Verb.

(** What a view function returns. *)
Inductive Reply :=
| XmlResponse (twiml : VoiceResponse)
    (* Response(str(twiml), mimetype='text/xml') *)
| TwimlObject (twiml : VoiceResponse)
    (* the VoiceResponse itself, as _generate_error_response hands it back *)
| PlainResponse (body : string) (status : nat).

(** *** Effects *)

(** An exception, by its [str(e)]. *)
Definition Exn := string.

Inductive Outcome (A : Type) :=
| Returned (a : A)
| Raised (e : Exn).
Arguments Returned {A} a.
Arguments Raised {A} e.

(** Every call that leaves the module is recorded, in order.  The history
    argument of the two CRM writes is the list whose [str()] the source
    passes. *)
Inductive Event :=
| LoggerInfo (msg : string)
| LoggerError (msg : string)
| LoggerCallEnd (lead result : string)
| CrmGetLeadById (lead : string)
| CrmMarkLeadQualified (lead summary : string) (history : list Turn)
| CrmMarkLeadDisqualified (reason : string) (history : list Turn)
| GptProcessUserResponse (lead speech : string) (state : ConversationState)
| GptProcessFinalQualification (lead : string) (state : ConversationState).

Record World := mkWorld {
  conversation_states : Store;
  journal : list Event
}.

(** Modelled from the spec: [gpt.agent.GPTAgent], [zoho.crm.ZohoCRM] and the
    clock are outside the sources at hand.  Following sections 1, 3 and 6
    each is an opaque collaborator behind a narrow interface: it returns a
    value or raises, and it never writes the state store ("the dispatcher is
    the sole writer").  [now] is [datetime.now().isoformat()] at the time of
    the callback.  [utils.logger] is taken never to raise. *)
Record Env := mkEnv {
  get_lead_by_id : string -> Outcome (option LeadInfo);
  process_user_response :
    string -> string -> ConversationState -> Outcome GptResponse;
  process_final_qualification :
    string -> ConversationState -> Outcome GptResponse;
  mark_lead_qualified : string -> string -> list Turn -> Outcome unit;
  mark_lead_disqualified : string -> list Turn -> Outcome unit;
  now : string
}.

(** State and journal survive an exception, as in Python. *)
Definition M (A : Type) : Type := World -> Outcome A * World.

#[export] Instance Monad_M : Monad M := {|
  ret := fun A (a : A) w => (Returned a, w);
  bind := fun A B (c : M A) (k : A -> M B) w =>
    match c w with
    | (Returned a, w') => k a w'
    | (Raised e, w') => (Raised e, w')
    end
|}.

Definition raise {A} (e : Exn) : M A := fun w => (Raised e, w).

(** [try: body except Exception as e: handler] *)
Definition try_except {A} (body : M A) (handler : Exn -> M A) : M A :=
  fun w =>
    match body w with
    | (Returned a, w') => (Returned a, w')
    | (Raised e, w') => handler e w'
    end.

Definition get_states : M Store :=
  fun w => (Returned (conversation_states w), w).

Definition put_states (s : Store) : M unit :=
  fun w => (Returned tt, mkWorld s (journal w)).

Definition emit (ev : Event) : M unit :=
  fun w => (Returned tt, mkWorld (conversation_states w) (journal w ++ [ev])).

(** A call to a collaborator: recorded, then its outcome. *)
Definition call {A} (ev : Event) (r : Outcome A) : M A :=
  emit ev ;; (fun w => (r, w)).

Definition logger_info (msg : string) : M unit := emit (LoggerInfo msg).
Definition logger_error (msg : string) : M unit := emit (LoggerError msg).
Definition logger_log_call_end (lead result : string) : M unit :=
  emit (LoggerCallEnd lead result).

(** [conversation_states[k]], a [KeyError] when absent. *)
Definition state_of (k : string) : M ConversationState :=
  s <- get_states ;;
  match store_get k s with
  | Some st => ret st
  | None => raise ("'" ++ k ++ "'")
  end.

(** [del conversation_states[k]], a [KeyError] when absent. *)
Definition del_state (k : string) : M unit :=
  s <- get_states ;;
  if store_mem k s then put_states (store_del k s)
  else raise ("'" ++ k ++ "'").

(** An interpolated value that may be [None]. *)
Definition fmt (o : option string) : string := get_or o "None".

(** *** Spoken responses *)

(** [s.strip()].  A Python [str] is held as its UTF-8 encoding, so the
    white space [strip] removes (the characters [str.isspace] accepts) comes
    in one, two or three bytes:
    - U+0009..U+000D, U+001C..U+001F, U+0020: the byte itself;
    - U+0085, U+00A0: C2 85, C2 A0;
    - U+1680: E1 9A 80;
    - U+2000..U+200A, U+2028, U+2029, U+202F: E2 80 80..8A, E2 80 A8,
      E2 80 A9, E2 80 AF;
    - U+205F: E2 81 9F;
    - U+3000: E3 80 80. *)
Definition is_space (c : ascii) : bool :=
  let n := nat_of_ascii c in
  (n =? 32)%nat || ((9 <=? n) && (n <=? 13))%nat
  || ((28 <=? n) && (n <=? 31))%nat.

Definition is_space2 (a b : ascii) : bool :=
  let a := nat_of_ascii a in
  let b := nat_of_ascii b in
  ((a =? 194) && ((b =? 133) || (b =? 160)))%nat.

Definition is_space3 (a b c : ascii) : bool :=
  let a := nat_of_ascii a in
  let b := nat_of_ascii b in
  let c := nat_of_ascii c in
  (((a =? 225) && (b =? 154) && (c =? 128))
   || ((a =? 226) && (b =? 128)
       && (((128 <=? c) && (c <=? 138))
           || (c =? 168) || (c =? 169) || (c =? 175)))
   || ((a =? 226) && (b =? 129) && (c =? 159))
   || ((a =? 227) && (b =? 128) && (c =? 128)))%nat.

(** Drops the white space a byte sequence starts with.  With [back] the
    sequence is read from its end (it is given reversed), so the bytes of a
    character come last byte first. *)
Fixpoint strip_front (back : bool) (l : list ascii) : list ascii :=
  match l with
  | [] => []
  | c :: r =>
      if is_space c then strip_front back r
      else
        match r with
        | [] => l
        | c2 :: r2 =>
            if (if back then is_space2 c2 c else is_space2 c c2) then
              strip_front back r2
            else
              match r2 with
              | [] => l
              | c3 :: r3 =>
                  if (if back then is_space3 c3 c2 c else is_space3 c c2 c3)
                  then strip_front back r3
                  else l
              end
        end
  end.

Definition strip (s : string) : string :=
  string_of_list_ascii
    (rev (strip_front true
            (rev (strip_front false (list_ascii_of_string s))))).

Definition aditi (t : string) : Prompt := mkPrompt t "Polly.Aditi" "hi-IN".

Definition gather_speech (lead : string) : Verb :=
  Gather "speech" "hi-IN" "auto" ("/twilio/gather?lead_id=" ++ lead) "POST"
         [aditi "Aap kuch bol sakte hain?"].

Definition _generate_voice_response (lead : string) (lead_info : LeadInfo)
  : VoiceResponse :=
  let first_name := field_shown "First_Name" lead_info in
  let last_name := field_shown "Last_Name" lead_info in
  let lead_name := strip (first_name ++ " " ++ last_name) in
  let lead_name := if lead_name =? "" then "Sir/Madam" else lead_name in
  let greeting :=
    "Namaste " ++ lead_name
    ++ "! Main aapko call kar raha hoon. Kya aap mujhe 2 minute de sakte hain?"
  in
  [ Say (aditi greeting);
    gather_speech lead;
    Say (aditi "Thank you for your time. Goodbye!");
    Hangup ].

Definition _generate_error_response (error_message : string)
  : VoiceResponse :=
  [ Say (aditi ("Sorry, " ++ error_message ++ ". Please try again later."));
    Hangup ].

Definition crm_get_lead_by_id (env : Env) (lead : string)
  : M (option LeadInfo) :=
  call (CrmGetLeadById lead) (get_lead_by_id env lead).

Definition crm_mark_lead_qualified (env : Env) (lead summ : string)
  (history : list Turn) : M unit :=
  call (CrmMarkLeadQualified lead summ history)
       (mark_lead_qualified env lead summ history).

Definition crm_mark_lead_disqualified (env : Env) (why : string)
  (history : list Turn) : M unit :=
  call (CrmMarkLeadDisqualified why history)
       (mark_lead_disqualified env why history).

Definition gpt_process_user_response (env : Env) (lead speech : string)
  (state : ConversationState) : M GptResponse :=
  call (GptProcessUserResponse lead speech state)
       (process_user_response env lead speech state).

Definition gpt_process_final_qualification (env : Env) (lead : string)
  (state : ConversationState) : M GptResponse :=
  call (GptProcessFinalQualification lead state)
       (process_final_qualification env lead state).

Definition _generate_follow_up_response (env : Env) (lead : string)
  (gpt_response : GptResponse) : M VoiceResponse :=
  if truthy (is_final gpt_response) then
    let result := get_or (qualification_result gpt_response) "unknown" in
    let summ := get_or (summary gpt_response) "" in
    let message :=
      if result =? "qualified" then
        "Bahut achha! Aap qualify ho gaye hain. Hamara team aapko contact karega. Thank you!"
      else
        "Thank you for your time. Hamara team aapko future mein contact kar sakta hai. Goodbye!"
    in
    let response := [Say (aditi message); Hangup] in
    (if result =? "qualified" then
       st <- state_of lead ;;
       crm_mark_lead_qualified env lead summ (conversation_history st)
     else
       let why := get_or (reason gpt_response) "No specific reason" in
       st <- state_of lead ;;
       crm_mark_lead_disqualified env why (conversation_history st)) ;;
    logger_log_call_end lead result ;;
    ret response
  else
    let question :=
      get_or (next_question gpt_response)
             "Kya aap mujhe aur detail de sakte hain?" in
    ret [ Say (aditi question);
          gather_speech lead;
          Say (aditi "Thank you for your time. Goodbye!");
          Hangup ].

(** *** View functions *)

(** The state a first voice callback creates. *)
Definition fresh_state (env : Env) (lead : string) (sid : option string)
  : ConversationState :=
  mkState lead sid [] "greeting" (now env) [].

Definition handle_voice_webhook (env : Env) (lead : string) (form : Form)
  : M Reply :=
  try_except
    (let sid := form_get "CallSid" form in
     let from_number := form_get "From" form in
     let to_number := form_get "To" form in
     logger_info ("Voice webhook received for Lead " ++ lead
                  ++ ", Call SID: " ++ fmt sid) ;;
     logger_info ("Call from: " ++ fmt from_number
                  ++ ", to: " ++ fmt to_number) ;;
     states <- get_states ;;
     (if negb (store_mem lead states) then
        put_states (store_set lead (fresh_state env lead sid) states)
      else ret tt) ;;
     (* inl: the view returns from inside the inner try *)
     fetched <-
       try_except
         (lead_info <- crm_get_lead_by_id env lead ;;
          if lead_missing lead_info then
            logger_error ("Lead " ++ lead ++ " not found in Zoho CRM") ;;
            ret (inl (TwimlObject
                   (_generate_error_response "Lead information not found")))
          else ret (inr (get_or lead_info [])))
         (fun e =>
            logger_error ("Error fetching lead " ++ lead ++ ": " ++ e) ;;
            ret (inl (TwimlObject
                   (_generate_error_response
                      "Error fetching lead information")))) ;;
     match fetched with
     | inl reply => ret reply
     | inr lead_info =>
         let twiml := _generate_voice_response lead lead_info in
         logger_info ("Generated TwiML response for Lead " ++ lead) ;;
         ret (XmlResponse twiml)
     end)
    (fun e =>
       logger_error ("Error in voice webhook for Lead " ++ lead
                     ++ ": " ++ e) ;;
       ret (TwimlObject (_generate_error_response "An error occurred"))).

(** The turn [handle_gather] appends. *)
Definition user_turn (env : Env) (form : Form) : Turn :=
  mkTurn "user"
         (form_get_default "SpeechResult" "" form)
         (form_get_default "Confidence" "0" form)
         (now env).

(** [conversation_states[k]['conversation_history'].append(t)] *)
Definition append_turn (t : Turn) (st : ConversationState)
  : ConversationState :=
  mkState (lead_id st) (call_sid st) (conversation_history st ++ [t])
          (current_step st) (start_time st) (qualification_questions st).

(** [not lead_id or lead_id not in conversation_states] *)
Definition invalid_lead (lead : option string) (states : Store) : bool :=
  match lead with
  | None => true
  | Some l => (l =? "") || negb (store_mem l states)
  end.

Definition handle_gather (env : Env) (form : Form) : M Reply :=
  try_except
    (let lead := form_get "lead_id" form in
     let speech_result := form_get_default "SpeechResult" "" form in
     let conf := form_get_default "Confidence" "0" form in
     logger_info ("Speech input received for Lead " ++ fmt lead ++ ": '"
                  ++ speech_result ++ "' (confidence: " ++ conf ++ ")") ;;
     states <- get_states ;;
     if invalid_lead lead states then
       ret (TwimlObject (_generate_error_response "Invalid lead ID"))
     else
       let l := get_or lead "" in
       st <- state_of l ;;
       put_states (store_set l (append_turn (user_turn env form) st) states) ;;
       st' <- state_of l ;;
       next_response <- gpt_process_user_response env l speech_result st' ;;
       twiml <- _generate_follow_up_response env l next_response ;;
       ret (XmlResponse twiml))
    (fun e =>
       logger_error ("Error handling gather input: " ++ e) ;;
       ret (TwimlObject (_generate_error_response "An error occurred"))).

Definition _process_final_qualification (env : Env) (lead : string)
  : M unit :=
  try_except
    (states <- get_states ;;
     match store_get lead states with
     | None => ret tt
     | Some state =>
         if negb (current_step state =? "completed") then
           final_response <-
             gpt_process_final_qualification env lead state ;;
           if truthy (is_final final_response) then
             let result :=
               get_or (qualification_result final_response) "unknown" in
             let summ := get_or (summary final_response) "" in
             (if result =? "qualified" then
                crm_mark_lead_qualified env lead summ
                  (conversation_history state)
              else
                crm_mark_lead_disqualified env
                  (get_or (reason final_response) "No specific reason")
                  (conversation_history state)) ;;
             logger_log_call_end lead result ;;
             del_state lead
           else ret tt
         else ret tt
     end)
    (fun e =>
       logger_error ("Error processing final qualification for Lead "
                     ++ lead ++ ": " ++ e)).

Definition option_string_eqb (a b : option string) : bool :=
  match a, b with
  | Some x, Some y => x =? y
  | None, None => true
  | _, _ => false
  end.

(** The scan of [conversation_states.items()] for the call's lead. *)
Fixpoint find_lead (sid : option string) (states : Store) : option string :=
  match states with
  | [] => None
  | (lid, state) :: rest =>
      if option_string_eqb (call_sid state) sid then Some lid
      else find_lead sid rest
  end.

Definition handle_call_status (env : Env) (form : Form) : M Reply :=
  try_except
    (let sid := form_get "CallSid" form in
     let call_status := form_get "CallStatus" form in
     let call_duration := form_get "CallDuration" form in
     logger_info ("Call status update: " ++ fmt sid ++ " - "
                  ++ fmt call_status ++ " (Duration: "
                  ++ fmt call_duration ++ "s)") ;;
     states <- get_states ;;
     match find_lead sid states with
     | Some lead =>
         if negb (lead =? "")
            && option_string_eqb call_status (Some "completed")
         then _process_final_qualification env lead
         else ret tt
     | None => ret tt
     end ;;
     ret (PlainResponse "OK" 200))
    (fun e =>
       logger_error ("Error handling call status: " ++ e) ;;
       ret (PlainResponse "Error" 500)).

Definition handle_recording (form : Form) : M Reply :=
  try_except
    (let sid := form_get "CallSid" form in
     let recording_url := form_get "RecordingUrl" form in
     let recording_status := form_get "RecordingStatus" form in
     logger_info ("Recording update: " ++ fmt sid ++ " - "
                  ++ fmt recording_status) ;;
     match recording_url with
     | Some url =>
         if url =? "" then ret tt
         else logger_info ("Recording available at: " ++ url)
     | None => ret tt
     end ;;
     ret (PlainResponse "OK" 200))
    (fun e =>
       logger_error ("Error handling recording: " ++ e) ;;
       ret (PlainResponse "Error" 500)).

(** *** The server: callbacks handled one after the other *)

Inductive Request :=
| VoiceStarted (lead : string) (form : Form)   (* POST /twilio/voice/<lead_id> *)
| SpeechGathered (form : Form)                 (* POST /twilio/gather *)
| StatusChanged (form : Form)                  (* POST /twilio/status *)
| RecordingReady (form : Form).                (* POST /twilio/recording *)

Definition dispatch (env : Env) (r : Request) : M Reply :=
  match r with
  | VoiceStarted lead form => handle_voice_webhook env lead form
  | SpeechGathered form => handle_gather env form
  | StatusChanged form => handle_call_status env form
  | RecordingReady form => handle_recording form
  end.

(** Each callback comes with the collaborators and the clock as they are
    when it is served. *)
Fixpoint serve (rs : list (Env * Request)) (w : World) : World :=
  match rs with
  | [] => w
  | (env, r) :: rest => serve rest (snd (dispatch env r w))
  end.

(** Gather callbacks alone, each with its environment. *)
Definition gathered (d : Env * Form) : Env * Request :=
  (fst d, SpeechGathered (snd d)).

(** *** Vocabulary of the properties *)

(** The CRM cannot resolve the lead: the lookup raises, or returns nothing. *)
Definition lead_unresolved (env : Env) (lead : string) : bool :=
  match get_lead_by_id env lead with
  | Raised _ => true
  | Returned r => lead_missing r
  end.

(** The terminal CRM writes of a journal. *)
Definition is_terminal_write (ev : Event) : bool :=
  match ev with
  | CrmMarkLeadQualified _ _ _ | CrmMarkLeadDisqualified _ _ => true
  | _ => false
  end.

Definition terminal_writes (j : list Event) : list Event :=
  filter is_terminal_write j.

(** The final qualification of [lead] in state [st] fails with [e]: the
    decision function raises, or it gives a final verdict and the CRM write
    that verdict calls for raises. *)
Definition final_qualification_raises (env : Env) (lead : string)
  (st : ConversationState) (e : Exn) : Prop :=
  process_final_qualification env lead st = Raised e
  \/ exists r,
       process_final_qualification env lead st = Returned r
       /\ truthy (is_final r) = true
       /\ (if get_or (qualification_result r) "unknown" =? "qualified" then
             mark_lead_qualified env lead (get_or (summary r) "")
               (conversation_history st)
           else
             mark_lead_disqualified env
               (get_or (reason r) "No specific reason")
               (conversation_history st)) = Raised e.

(** The states the decision function was consulted with on gather
    callbacks. *)
Fixpoint decision_inputs (j : list Event)
  : list (string * string * ConversationState) :=
  match j with
  | [] => []
  | GptProcessUserResponse l u st :: rest => (l, u, st) :: decision_inputs rest
  | _ :: rest => decision_inputs rest
  end.

End Webhook.

(** ** A call, end to end: lead [L1] on call [CA1] *)

Module Scenario.

Import Webhook.
Local Open Scope string_scope.

Definition verdict_qualified : GptResponse :=
  mkGpt (Some true) (Some "qualified") (Some "Interested, has budget")
        None None.

(** Every collaborator answers; the decision function concludes at once. *)
Definition env_final : Env :=
  mkEnv (fun _ => Returned (Some [("First_Name", Text "Asha"); ("Last_Name", Text "Rao")]))
        (fun _ _ _ => Returned verdict_qualified)
        (fun _ _ => Returned verdict_qualified)
        (fun _ _ _ => Returned tt)
        (fun _ _ => Returned tt)
        "2024-05-01T10:00:00".

(** The CRM does not know the lead. *)
Definition env_no_lead : Env :=
  mkEnv (fun _ => Returned None)
        (fun _ _ _ => Returned verdict_qualified)
        (fun _ _ => Returned verdict_qualified)
        (fun _ _ _ => Returned tt)
        (fun _ _ => Returned tt)
        "2024-05-01T10:00:00".

(** The decision function is down when the call ends. *)
Definition env_gpt_down : Env :=
  mkEnv (fun _ => Returned (Some [("First_Name", Text "Asha"); ("Last_Name", Text "Rao")]))
        (fun _ _ _ => Raised "timeout")
        (fun _ _ => Raised "timeout")
        (fun _ _ _ => Returned tt)
        (fun _ _ => Returned tt)
        "2024-05-01T10:02:00".

Definition voice_form : Form :=
  [("CallSid", "CA1"); ("From", "+15550001111"); ("To", "+919991234567")].

Definition gather_form : Form :=
  [("lead_id", "L1"); ("SpeechResult", "yes interested");
   ("Confidence", "0.93")].

Definition status_form : Form :=
  [("CallSid", "CA1"); ("CallStatus", "completed"); ("CallDuration", "42")].

Definition world0 : World := mkWorld [] [].

(** The store once the call to [L1] has started. *)
Definition world_started : World :=
  serve [(env_final, VoiceStarted "L1" voice_form)] world0.

End Scenario.

(* ===================================================================== *)
(** ** call.py: the rest of [TwilioCallManager]                           *)
(* ===================================================================== *)

Module Manager.

Import Call.

(** What a call into the Twilio client can raise: the library's own
    [TwilioException], or anything else. *)
Inductive Failure :=
| TwilioException (msg : pystr)
| OtherException (msg : pystr).

(** [str(e)] *)
Definition message_of (f : Failure) : pystr :=
  match f with
  | TwilioException m | OtherException m => m
  end.

Inductive Result (A : Type) :=
| Ok (a : A)
| Raises (f : Failure).
Arguments Ok {A} a.
Arguments Raises {A} f.

(** The attributes of a Twilio call resource the module reads; their values
    are passed on untouched. *)
Record CallInstance := mkCall {
  sid : pystr;
  status : pystr;
  to : pystr;
  from_formatted : pystr;
  start_time : pystr;
  end_time : pystr;
  duration : pystr;
  price : pystr;
  price_unit : pystr
}.

(** The keyword arguments of [client.calls.create]. *)
Record CallParams := mkParams {
  p_to : pystr;
  p_from_ : pystr;
  p_url : pystr;
  p_method : pystr;
  p_status_callback : pystr;
  p_status_callback_event : list pystr;
  p_status_callback_method : pystr;
  p_record : bool;
  p_recording_status_callback : pystr;
  p_recording_status_callback_method : pystr
}.

(** The Twilio REST client, a remote service: each operation answers or
    raises. *)
Record Client := mkClient {
  calls_create : CallParams -> Result CallInstance;
  calls_fetch : pystr -> Result CallInstance;
  calls_update : pystr -> pystr -> Result CallInstance;
  calls_list : nat -> Result (list CallInstance);
  accounts_fetch : pystr -> Result pystr   (* the account's friendly_name *)
}.

(** [self] *)
Record TwilioCallManager := mkManager {
  account_sid : pystr;
  auth_token : pystr;
  phone_number : pystr;
  client : Client;
  webhook_base_url : pystr
}.

(** What the manager does to the outside, in order. *)
Inductive Action :=
| LogCallStart (lead phone : pystr)
| LogInfo (msg : pystr)
| LogError (msg : pystr)
| CallsCreate (params : CallParams)
| CallsFetch (call : pystr)
| CallsUpdate (call status : pystr)
| CallsList (limit : nat)
| AccountsFetch (account : pystr).

(** Truth value of an [os.getenv] result: set and not empty. *)
Definition is_set (v : option pystr) : bool :=
  match v with
  | Some (_ :: _) => true
  | _ => false
  end.

Definition value_of (v : option pystr) : pystr :=
  match v with
  | Some s => s
  | None => []
  end.

(** [__init__]: [getenv] is the process environment, [Client] the
    constructor of the Twilio client. *)
Definition __init__ (getenv : string -> option pystr)
  (make_client : pystr -> pystr -> Client) : Result TwilioCallManager :=
  let account := getenv "TWILIO_ACCOUNT_SID"%string in
  let token := getenv "TWILIO_AUTH_TOKEN"%string in
  let number := getenv "TWILIO_PHONE_NUMBER"%string in
  if negb (forallb is_set [account; token; number]) then
    Raises (OtherException
              (lit "Missing required Twilio environment variables"))
  else
    let c := make_client (value_of account) (value_of token) in
    let base := getenv "WEBHOOK_BASE_URL"%string in
    if negb (is_set base) then
      Raises (OtherException
                (lit "Missing WEBHOOK_BASE_URL environment variable"))
    else
      Ok (mkManager (value_of account) (value_of token) (value_of number) c
                    (value_of base)).

(** The dictionary [initiate_call] returns. *)
Record CallInfo := mkInfo {
  i_call_sid : pystr;
  i_status : pystr;
  i_to : pystr;
  i_lead_id : pystr
}.

(** One row of [get_call_status]. *)
Record CallStatus := mkStatus {
  s_sid : pystr;
  s_status : pystr;
  s_duration : pystr;
  s_start_time : pystr;
  s_end_time : pystr;
  s_price : pystr;
  s_price_unit : pystr
}.

(** One row of [get_call_logs]. *)
Record CallLog := mkLog {
  l_sid : pystr;
  l_to : pystr;
  l_from_ : pystr;
  l_status : pystr;
  l_start_time : pystr;
  l_duration : pystr;
  l_price : pystr
}.

Section Methods.

Variable unicode_digit : codepoint -> bool.
Variable self : TwilioCallManager.

Definition call_params (formatted_phone lead : pystr) : CallParams :=
  let base := webhook_base_url self in
  mkParams formatted_phone
           (phone_number self)
           (base ++ lit "/twilio/voice/" ++ lead)
           (lit "POST")
           (base ++ lit "/twilio/status")
           [lit "initiated"; lit "ringing"; lit "answered"; lit "completed"]
           (lit "POST")
           true
           (base ++ lit "/twilio/recording")
           (lit "POST").

(** The value returned (None on failure) and what was done on the way. *)
Definition initiate_call (lead_phone lead lead_name : pystr)
  : option CallInfo * list Action :=
  let formatted_phone := _format_phone_number unicode_digit lead_phone in
  let params := call_params formatted_phone lead in
  match calls_create (client self) params with
  | Ok call =>
      (Some (mkInfo (sid call) (status call) formatted_phone lead),
       [CallsCreate params;
        LogCallStart lead formatted_phone;
        LogInfo (lit "Initiated Twilio call to " ++ lead_name ++ lit " ("
                 ++ formatted_phone ++ lit ") - Call SID: " ++ sid call)])
  | Raises (TwilioException m) =>
      (None,
       [CallsCreate params;
        LogError (lit "Twilio error initiating call to " ++ lead_phone
                  ++ lit ": " ++ m)])
  | Raises (OtherException m) =>
      (None,
       [CallsCreate params;
        LogError (lit "Unexpected error initiating call to " ++ lead_phone
                  ++ lit ": " ++ m)])
  end.

(** The three methods below catch [TwilioException] only: anything else
    leaves the method as an exception. *)
Definition get_call_status (call_id : pystr)
  : Result (option CallStatus) * list Action :=
  match calls_fetch (client self) call_id with
  | Ok call =>
      (Ok (Some (mkStatus (sid call) (status call) (duration call)
                          (start_time call) (end_time call) (price call)
                          (price_unit call))),
       [CallsFetch call_id])
  | Raises (TwilioException m) =>
      (Ok None,
       [CallsFetch call_id;
        LogError (lit "Failed to get call status for " ++ call_id
                  ++ lit ": " ++ m)])
  | Raises (OtherException m) =>
      (Raises (OtherException m), [CallsFetch call_id])
  end.

Definition end_call (call_id : pystr) : Result bool * list Action :=
  match calls_update (client self) call_id (lit "completed") with
  | Ok _ =>
      (Ok true,
       [CallsUpdate call_id (lit "completed");
        LogInfo (lit "Ended call " ++ call_id)])
  | Raises (TwilioException m) =>
      (Ok false,
       [CallsUpdate call_id (lit "completed");
        LogError (lit "Failed to end call " ++ call_id ++ lit ": " ++ m)])
  | Raises (OtherException m) =>
      (Raises (OtherException m), [CallsUpdate call_id (lit "completed")])
  end.

Definition log_row (call : CallInstance) : CallLog :=
  mkLog (sid call) (to call) (from_formatted call) (status call)
        (start_time call) (duration call) (price call).

(** [limit=50] when the caller gives none. *)
Definition get_call_logs (limit : option nat)
  : Result (list CallLog) * list Action :=
  let n := match limit with Some n => n | None => 50 end in
  match calls_list (client self) n with
  | Ok calls => (Ok (map log_row calls), [CallsList n])
  | Raises (TwilioException m) =>
      (Ok [],
       [CallsList n; LogError (lit "Failed to get call logs: " ++ m)])
  | Raises (OtherException m) =>
      (Raises (OtherException m), [CallsList n])
  end.

(** Catches every exception. *)
Definition test_connection : bool * list Action :=
  match accounts_fetch (client self) (account_sid self) with
  | Ok friendly_name =>
      (true,
       [AccountsFetch (account_sid self);
        LogInfo (lit "Twilio connection test successful - Account: "
                 ++ friendly_name)])
  | Raises f =>
      (false,
       [AccountsFetch (account_sid self);
        LogError (lit "Twilio connection test failed: " ++ message_of f)])
  end.

End Methods.

End Manager.

(* ===================================================================== *)
(** ** More vocabulary for the handlers                                   *)
(* ===================================================================== *)

Module Conduct.

Import Webhook.
Local Open Scope string_scope.

(** The TwiML a reply carries, if any. *)
Definition twiml_of (r : Reply) : option VoiceResponse :=
  match r with
  | XmlResponse t | TwimlObject t => Some t
  | PlainResponse _ _ => None
  end.

(** A response that speaks first and hangs up last. *)
Definition speaks_then_hangs_up (t : VoiceResponse) : Prop :=
  exists p middle, t = (Say p :: middle ++ [Hangup])%list.

(** The lead a callback is about: the path segment, the form field, or the
    lead found by the call's identifier. *)
Definition target (r : Request) (w : World) : option string :=
  match r with
  | VoiceStarted lead _ => Some lead
  | SpeechGathered form => form_get "lead_id" form
  | StatusChanged form =>
      find_lead (form_get "CallSid" form) (conversation_states w)
  | RecordingReady _ => None
  end.

(** Calls that leave the process for the CRM or the decision function, as
    opposed to log lines. *)
Definition is_collaborator_call (ev : Event) : bool :=
  match ev with
  | LoggerInfo _ | LoggerError _ | LoggerCallEnd _ _ => false
  | _ => true
  end.

(** An entry is filed under its own lead. *)
Definition filed_under_own_lead (kv : string * ConversationState) : Prop :=
  lead_id (snd kv) = fst kv.

(** An entry as the handlers leave it: still at the greeting step, with
    nothing but user turns. *)
Definition as_created (kv : string * ConversationState) : Prop :=
  current_step (snd kv) = "greeting"
  /\ qualification_questions (snd kv) = []
  /\ Forall (fun t => speaker t = "user") (conversation_history (snd kv)).

Definition store_ok (s : Store) : Prop :=
  NoDup (map fst s)
  /\ Forall filed_under_own_lead s
  /\ Forall as_created s.

(** A string of white space only, the empty string included: its bytes
    are the encodings of white-space characters, one after the other. *)
Fixpoint all_space (l : list ascii) : bool :=
  match l with
  | [] => true
  | c :: r =>
      if is_space c then all_space r
      else
        match r with
        | [] => false
        | c2 :: r2 =>
            if is_space2 c c2 then all_space r2
            else
              match r2 with
              | [] => false
              | c3 :: r3 => is_space3 c c2 c3 && all_space r3
              end
        end
  end.

Definition blank (s : string) : bool :=
  all_space (list_ascii_of_string s).

(** The closing line of a final follow-up. *)
Definition closing_qualified : string :=
  "Bahut achha! Aap qualify ho gaye hain. Hamara team aapko contact karega. Thank you!".

Definition closing_other : string :=
  "Thank you for your time. Hamara team aapko future mein contact kar sakta hai. Goodbye!".

(** The log line that opens a gather callback. *)
Definition gather_log (form : Form) : Event :=
  LoggerInfo ("Speech input received for Lead "
              ++ fmt (form_get "lead_id" form) ++ ": '"
              ++ form_get_default "SpeechResult" "" form
              ++ "' (confidence: "
              ++ form_get_default "Confidence" "0" form ++ ")").

(** The log line that opens a status callback. *)
Definition status_log (form : Form) : Event :=
  LoggerInfo ("Call status update: " ++ fmt (form_get "CallSid" form)
              ++ " - " ++ fmt (form_get "CallStatus" form)
              ++ " (Duration: " ++ fmt (form_get "CallDuration" form)
              ++ "s)").

(** The gather callback fails with [e] once the turn is in: the decision
    function raises, or its verdict is final and the CRM write raises. *)
Definition user_response_raises (env : Env) (lead speech : string)
  (st : ConversationState) (e : Exn) : Prop :=
  process_user_response env lead speech st = Raised e
  \/ exists g,
       process_user_response env lead speech st = Returned g
       /\ truthy (is_final g) = true
       /\ (if get_or (qualification_result g) "unknown" =? "qualified" then
             mark_lead_qualified env lead (get_or (summary g) "")
               (conversation_history st)
           else
             mark_lead_disqualified env
               (get_or (reason g) "No specific reason")
               (conversation_history st)) = Raised e.

(** The CRM write a final verdict calls for, on the history [hist]: the
    call recorded, and what the CRM answers. *)
Definition verdict_write (lead : string) (g : GptResponse)
  (hist : list Turn) : Event :=
  if get_or (qualification_result g) "unknown" =? "qualified" then
    CrmMarkLeadQualified lead (get_or (summary g) "") hist
  else
    CrmMarkLeadDisqualified (get_or (reason g) "No specific reason") hist.

Definition verdict_write_outcome (env : Env) (lead : string)
  (g : GptResponse) (hist : list Turn) : Outcome unit :=
  if get_or (qualification_result g) "unknown" =? "qualified" then
    mark_lead_qualified env lead (get_or (summary g) "") hist
  else
    mark_lead_disqualified env (get_or (reason g) "No specific reason") hist.

End Conduct.

(* ===================================================================== *)
(** ** More of the call to [L1], and a second lead                        *)
(* ===================================================================== *)

Module Cases.

Import Webhook.
Import Scenario.
Local Open Scope string_scope.

Definition verdict_ask_budget : GptResponse :=
  mkGpt (Some false) None None None (Some "What is your budget?").

Definition verdict_declined : GptResponse :=
  mkGpt (Some true) (Some "not_interested") None None None.

(** The decision function wants to go on. *)
Definition env_ask : Env :=
  mkEnv (fun _ => Returned (Some [("First_Name", Text "Asha"); ("Last_Name", Text "Rao")]))
        (fun _ _ _ => Returned verdict_ask_budget)
        (fun _ _ => Returned verdict_ask_budget)
        (fun _ _ _ => Returned tt)
        (fun _ _ => Returned tt)
        "2024-05-01T10:01:00".

(** The lead declines. *)
Definition env_declined : Env :=
  mkEnv (fun _ => Returned (Some [("First_Name", Text "Asha"); ("Last_Name", Text "Rao")]))
        (fun _ _ _ => Returned verdict_declined)
        (fun _ _ => Returned verdict_declined)
        (fun _ _ _ => Returned tt)
        (fun _ _ => Returned tt)
        "2024-05-01T10:01:00".

Definition ringing_form : Form :=
  [("CallSid", "CA1"); ("CallStatus", "ringing")].

Definition empty_lead_form : Form :=
  [("lead_id", ""); ("SpeechResult", "hello")].

(** U+00A0, a no-break space. *)
Definition nbsp : string :=
  String (ascii_of_nat 194) (String (ascii_of_nat 160) EmptyString).

(** U+2003, an em space. *)
Definition em_space : string :=
  String (ascii_of_nat 226)
    (String (ascii_of_nat 128) (String (ascii_of_nat 131) EmptyString)).

(** A record with a first name of white space and no last name. *)
Definition nameless_lead : LeadInfo :=
  [("First_Name", Text (" " ++ nbsp ++ em_space)); ("Company", Text "Acme")].

(** The entry of [L1] once its call has started. *)
Definition started : ConversationState :=
  fresh_state env_final "L1" (Some "CA1").

(** Two calls under way: [L1] on [CA1], [L2] on [CA2]. *)
Definition world_two : World :=
  serve [(env_final, VoiceStarted "L2" [("CallSid", "CA2")])] world_started.

(** A manager whose Twilio account lists two calls. *)
Definition call_ca1 : Manager.CallInstance :=
  Manager.mkCall (Call.lit "CA1") (Call.lit "queued")
    (Call.lit "+919991234567") (Call.lit "(555) 000-1111")
    (Call.lit "10:00") (Call.lit "10:02") (Call.lit "42")
    (Call.lit "-0.02") (Call.lit "USD").

Definition call_ca2 : Manager.CallInstance :=
  Manager.mkCall (Call.lit "CA2") (Call.lit "completed")
    (Call.lit "+923001234567") (Call.lit "(555) 000-1111")
    (Call.lit "11:00") (Call.lit "11:05") (Call.lit "300")
    (Call.lit "-0.10") (Call.lit "USD").

Definition client_up : Manager.Client :=
  Manager.mkClient (fun _ => Manager.Ok call_ca1)
                   (fun _ => Manager.Ok call_ca1)
                   (fun _ _ => Manager.Ok call_ca1)
                   (fun _ => Manager.Ok [call_ca1; call_ca2])
                   (fun _ => Manager.Ok (Call.lit "Sales")).

Definition manager_up : Manager.TwilioCallManager :=
  Manager.mkManager (Call.lit "AC1") (Call.lit "secret")
    (Call.lit "+15550001111") client_up (Call.lit "https://agent.example").

End Cases.

(* ===================================================================== *)
(** ** Properties of the phone-number formatter                           *)
(* ===================================================================== *)

Section NormalizerFacts.

Import Call.

Variable unicode_digit : codepoint -> bool.

Local Abbreviation kept := (Call.kept unicode_digit).
Local Abbreviation _format_phone_number :=
  (Call._format_phone_number unicode_digit).
Local Abbreviation normalize_spec := (Call.normalize_spec unicode_digit).

Lemma digit_or_space_kept c :
  digit_or_space c = true -> kept c = is_ascii_digit c.
Proof.
  unfold digit_or_space, kept, isdigit, is_ascii_digit. intros H.
  destruct (N.ltb_spec c 128) as [Hlt|Hge].
  - destruct (N.eqb_spec c 43) as [->|_]; [discriminate H | apply orb_false_r].
  - destruct (N.leb_spec c 57); [lia |].
    destruct (N.eqb_spec c 32); [lia |].
    rewrite andb_false_r in H. discriminate H.
Qed.

Lemma cleaned_digits r :
  forallb digit_or_space r = true ->
  forallb is_ascii_digit (filter kept r) = true.
Proof.
  induction r as [|c r IH]; simpl; [reflexivity |].
  intros H. apply andb_true_iff in H as [Hc Hr].
  rewrite (digit_or_space_kept c Hc).
  destruct (is_ascii_digit c) eqn:E; simpl; [rewrite E |]; auto.
Qed.

Lemma filter_kept_id s : forallb kept s = true -> filter kept s = s.
Proof.
  induction s as [|c s IH]; simpl; [reflexivity |].
  intros H. apply andb_true_iff in H as [Hc Hs].
  rewrite Hc, IH by assumption. reflexivity.
Qed.

Lemma forallb_kept_filter x : forallb kept (filter kept x) = true.
Proof.
  induction x as [|c x IH]; simpl; [reflexivity |].
  destruct (kept c) eqn:E; simpl; [rewrite E |]; assumption.
Qed.

Lemma forallb_kept_tail s :
  forallb kept s = true -> forallb kept (skipn 1 s) = true.
Proof.
  destruct s as [|c s]; simpl; [reflexivity |].
  intros H. apply andb_true_iff in H as [_ H]. exact H.
Qed.

(** A string that already has the canonical shape is left alone. *)
Lemma format_canonical s :
  forallb kept s = true -> startswith (lit "+") s = true ->
  _format_phone_number s = s.
Proof.
  intros Hk Hp. unfold _format_phone_number.
  rewrite (filter_kept_id s Hk), Hp. reflexivity.
Qed.

(** The result always has the canonical shape. *)
Lemma format_shape x :
  forallb kept (_format_phone_number x) = true /\
  startswith (lit "+") (_format_phone_number x) = true.
Proof.
  unfold _format_phone_number.
  pose proof (forallb_kept_filter x) as Hk.
  pose proof (forallb_kept_tail _ Hk) as Ht.
  set (cleaned := filter kept x) in *.
  destruct (startswith (lit "+") cleaned) eqn:Hp; simpl negb; cbv iota.
  - split; assumption.
  - repeat match goal with
           | |- context [if ?b then _ else _] => destruct b
           end;
      (split; [| reflexivity]);
      rewrite forallb_app; (rewrite Hk || rewrite Ht); reflexivity.
Qed.


(** On the inputs of the contract, what survives the cleaning pass after
    a first character that is not a plus is a string of digits. *)
Lemma cleaned_input x :
  phone_input x = true ->
  startswith (lit "+") (filter kept x) = true \/
  forallb is_ascii_digit (filter kept x) = true.
Proof.
  destruct x as [|c r]; [right; reflexivity |].
  unfold phone_input. intros H.
  apply andb_true_iff in H as [Hc Hr].
  apply orb_true_iff in Hc as [Hc|Hc].
  - left. apply N.eqb_eq in Hc. subst c. simpl.
    reflexivity.
  - right. apply cleaned_digits. simpl. rewrite Hc, Hr. reflexivity.
Qed.

(** C6.  On every input made of digits, spaces and an optional leading
    plus, [_format_phone_number] returns what the ordered first-match
    rules of the specification return; the three worked numbers come out
    as stated; being a total function, it returns a string on every
    input. *)
Theorem format_phone_number_follows_rules :
  (forall x, phone_input x = true ->
             _format_phone_number x = normalize_spec x)
  /\ _format_phone_number (lit "9991234567") = lit "+919991234567"
  /\ _format_phone_number (lit "03001234567") = lit "+923001234567"
  /\ _format_phone_number (lit "+14155551234") = lit "+14155551234".
Proof.
  split; [| repeat split; reflexivity].
  intros x Hx. unfold Call._format_phone_number, Call.normalize_spec.
  destruct (cleaned_input x Hx) as [Hp|Hd].
  - rewrite Hp. reflexivity.
  - set (s := filter kept x) in *. unfold is_n_digits. rewrite Hd.
    rewrite !andb_true_r.
    destruct (startswith (lit "+") s); simpl negb; cbv iota;
      [reflexivity |].
    rewrite (andb_comm (startswith (lit "91") s)).
    rewrite (andb_comm (startswith (lit "03") s)).
    reflexivity.
Qed.

(** C7.  Formatting is idempotent on every string: a second application
    returns the result of the first, which is in particular the case of an
    already canonical, plus-prefixed number. *)
Theorem format_phone_number_idempotent x :
  _format_phone_number (_format_phone_number x) = _format_phone_number x.
Proof.
  destruct (format_shape x) as [Hk Hp].
  apply format_canonical; assumption.
Qed.

End NormalizerFacts.

(** An input of the contract on which the rules are followed. *)
Lemma format_phone_number_follows_rules_witness :
  Call.phone_input (Call.lit "0300 1234567") = true /\
  Call._format_phone_number (fun _ => false) (Call.lit "0300 1234567")
  = Call.normalize_spec (fun _ => false) (Call.lit "0300 1234567").
Proof.
  split; [reflexivity |].
  apply (proj1 (format_phone_number_follows_rules (fun _ => false))).
  reflexivity.
Defined.

(* ===================================================================== *)
(** ** Properties of the callback handlers                                *)
(* ===================================================================== *)

Section WebhookFacts.

Import Webhook.
Import MonadNotation.
Local Open Scope string_scope.
Local Open Scope monad_scope.

(** *** The state store *)

Lemma store_get_set_same k v s : store_get k (store_set k v s) = Some v.
Proof.
  induction s as [|[k' v'] s IH]; simpl.
  - rewrite String.eqb_refl. reflexivity.
  - destruct (k' =? k) eqn:E; simpl; rewrite E; [reflexivity | exact IH].
Qed.

Lemma store_get_set_other k k' v s :
  k' <> k -> store_get k' (store_set k v s) = store_get k' s.
Proof.
  intros Hne. induction s as [|[k0 v0] s IH]; simpl.
  - destruct (String.eqb_spec k k'); [congruence | reflexivity].
  - destruct (String.eqb_spec k0 k) as [->|Hk]; simpl.
    + destruct (String.eqb_spec k k'); [congruence | reflexivity].
    + rewrite IH. reflexivity.
Qed.

(** *** Running the handlers *)

(** Unfolds the monad down to the collaborators' outcomes. *)
Ltac run_monad :=
  unfold try_except, state_of, del_state, get_states, put_states,
    crm_get_lead_by_id, crm_mark_lead_qualified, crm_mark_lead_disqualified,
    gpt_process_user_response, gpt_process_final_qualification,
    logger_info, logger_error, logger_log_call_end, call, emit, raise;
  cbn [bind ret Monad_M fst snd conversation_states journal].

(** Splits on the next thing the run is waiting for. *)
Ltac next_case :=
  match goal with
  | |- context [match ?x with _ => _ end] =>
      lazymatch x with
      | context [match _ with _ => _ end] => fail
      | _ => destruct x eqn:?
      end
  end;
  cbn [bind ret Monad_M fst snd conversation_states journal].

(** A follow-up response never writes the store. *)
Lemma follow_up_keeps_states env lead g w :
  conversation_states (snd (_generate_follow_up_response env lead g w))
  = conversation_states w.
Proof.
  unfold _generate_follow_up_response. run_monad.
  repeat next_case; reflexivity.
Qed.

Lemma store_set_absent k v s :
  store_get k s = None -> store_set k v s = (s ++ [(k, v)])%list.
Proof.
  induction s as [|[k' v'] s IH]; simpl; [reflexivity |].
  destruct (k' =? k); [discriminate |].
  intros H. rewrite (IH H). reflexivity.
Qed.

(** *** The voice callback *)

Lemma voice_states env lead form w :
  conversation_states (snd (handle_voice_webhook env lead form w))
  = match store_get lead (conversation_states w) with
    | Some _ => conversation_states w
    | None =>
        (conversation_states w
         ++ [(lead, fresh_state env lead (form_get "CallSid" form))])%list
    end.
Proof.
  unfold handle_voice_webhook, store_mem. run_monad.
  destruct (store_get lead (conversation_states w)) eqn:Hget;
    cbn [negb bind ret Monad_M fst snd conversation_states journal];
    try rewrite (store_set_absent _ _ _ Hget);
    repeat next_case; reflexivity.
Qed.

Lemma voice_unresolved_reply env lead form w :
  lead_unresolved env lead = true ->
  exists msg,
    fst (handle_voice_webhook env lead form w)
    = Returned (TwimlObject (_generate_error_response msg)).
Proof.
  unfold lead_unresolved, handle_voice_webhook. run_monad. intros H.
  destruct (negb (store_mem lead (conversation_states w)));
    cbn [bind ret Monad_M fst snd conversation_states journal];
    destruct (get_lead_by_id env lead) as [r|e];
    cbn [bind ret Monad_M fst snd conversation_states journal];
    try rewrite H;
    cbn [bind ret Monad_M fst snd conversation_states journal];
    eexists; reflexivity.
Qed.

(** C3, as the code has it.  When the CRM cannot resolve the lead of a
    voice-call-started callback, the handler answers with a spoken error
    followed by a hangup, and the store is what the state-initialization
    step made of it: unchanged if the lead already had an entry, and
    otherwise extended with a fresh entry for that lead. *)
Theorem voice_unresolved_lead env lead form w :
  lead_unresolved env lead = true ->
  (exists msg,
     fst (handle_voice_webhook env lead form w)
     = Returned (TwimlObject (_generate_error_response msg)))
  /\ conversation_states (snd (handle_voice_webhook env lead form w))
     = match store_get lead (conversation_states w) with
       | Some _ => conversation_states w
       | None =>
           (conversation_states w
            ++ [(lead, fresh_state env lead (form_get "CallSid" form))])%list
       end.
Proof.
  intros H. split.
  - apply voice_unresolved_reply. exact H.
  - apply voice_states.
Qed.

(** C10.  A voice-call-started callback for a lead that already has an
    entry leaves the store as it was: the entry keeps its call identifier,
    history, step and start time, whatever [CallSid] the callback carries. *)
Theorem voice_callback_keeps_existing_entry env lead form w st :
  store_get lead (conversation_states w) = Some st ->
  conversation_states (snd (handle_voice_webhook env lead form w))
  = conversation_states w
  /\ store_get lead
       (conversation_states (snd (handle_voice_webhook env lead form w)))
     = Some st.
Proof.
  intros H. rewrite voice_states, H. split; [reflexivity | exact H].
Qed.

(** *** The gather callback *)

Lemma gather_invalid env form w :
  invalid_lead (form_get "lead_id" form) (conversation_states w) = true ->
  handle_gather env form w
  = (Returned (TwimlObject (_generate_error_response "Invalid lead ID")),
     mkWorld (conversation_states w)
       (journal w
        ++ [LoggerInfo
              ("Speech input received for Lead "
               ++ fmt (form_get "lead_id" form) ++ ": '"
               ++ form_get_default "SpeechResult" "" form
               ++ "' (confidence: "
               ++ form_get_default "Confidence" "0" form ++ ")")])).
Proof.
  intros H. unfold handle_gather. run_monad. rewrite H. reflexivity.
Qed.

(** C4.  A gather callback whose [lead_id] is missing, or is not a key of
    the store, is answered with the error response, and the store after the
    call is the store before it. *)
Theorem gather_unknown_lead_rejected env form w :
  (form_get "lead_id" form = None
   \/ exists l, form_get "lead_id" form = Some l
                /\ store_get l (conversation_states w) = None) ->
  fst (handle_gather env form w)
  = Returned (TwimlObject (_generate_error_response "Invalid lead ID"))
  /\ conversation_states (snd (handle_gather env form w))
     = conversation_states w.
Proof.
  intros H. rewrite gather_invalid; [split; reflexivity |].
  destruct H as [-> | (l & -> & Hl)]; [reflexivity |].
  unfold invalid_lead, store_mem. rewrite Hl. apply orb_true_r.
Qed.

Lemma valid_lead l st s :
  l <> "" -> store_get l s = Some st -> invalid_lead (Some l) s = false.
Proof.
  intros Hl Hs. unfold invalid_lead, store_mem. rewrite Hs.
  destruct (String.eqb_spec l ""); [contradiction | reflexivity].
Qed.

(** What a gather callback on a known lead does: the turn goes into the
    store, the decision function is called once, on the state that holds
    the turn, and nothing after that call touches the store. *)
Lemma gather_known env form w l st :
  form_get "lead_id" form = Some l -> l <> "" ->
  store_get l (conversation_states w) = Some st ->
  let st' := append_turn (user_turn env form) st in
  conversation_states (snd (handle_gather env form w))
  = store_set l st' (conversation_states w)
  /\ exists info rest,
       journal (snd (handle_gather env form w))
       = (journal w
          ++ LoggerInfo info
             :: GptProcessUserResponse l
                  (form_get_default "SpeechResult" "" form) st'
             :: rest)%list
       /\ decision_inputs rest = [].
Proof.
  intros Hf Hl Hs st'. unfold handle_gather. run_monad.
  rewrite Hf, (valid_lead l st _ Hl Hs).
  cbn [get_or bind ret Monad_M fst snd conversation_states journal].
  rewrite Hs.
  cbn [bind ret Monad_M fst snd conversation_states journal].
  rewrite store_get_set_same. fold st'.
  cbn [bind ret Monad_M fst snd conversation_states journal].
  destruct (process_user_response env l _ st') as [g|e];
    cbn [bind ret Monad_M fst snd conversation_states journal].
  - unfold _generate_follow_up_response. run_monad.
    destruct (truthy (is_final g));
      [destruct (get_or (qualification_result g) "unknown" =? "qualified") |];
      cbn [bind ret Monad_M fst snd conversation_states journal];
      try rewrite store_get_set_same;
      cbn [bind ret Monad_M fst snd conversation_states journal];
    repeat next_case;
      (split; [reflexivity |]);
      rewrite <- !app_assoc; cbn [app];
      do 2 eexists; (split; [reflexivity | reflexivity]).
  - split; [reflexivity |].
    rewrite <- !app_assoc; cbn [app].
    do 2 eexists. split; reflexivity.
Qed.


(** One gather callback never shortens or rewrites a stored history. *)
Lemma gather_extends_history env form w k st :
  store_get k (conversation_states w) = Some st ->
  exists st' added,
    store_get k (conversation_states (snd (handle_gather env form w)))
    = Some st'
    /\ conversation_history st'
       = (conversation_history st ++ added)%list.
Proof.
  intros Hk.
  destruct (invalid_lead (form_get "lead_id" form) (conversation_states w))
    eqn:Hinv.
  - rewrite (gather_invalid env form w Hinv). cbn [snd conversation_states].
    exists st, []. rewrite app_nil_r. split; [exact Hk | reflexivity].
  - unfold invalid_lead in Hinv.
    destruct (form_get "lead_id" form) as [l|] eqn:Hf; [| discriminate].
    apply orb_false_iff in Hinv as [Hne Hmem].
    apply String.eqb_neq in Hne. unfold store_mem in Hmem.
    destruct (store_get l (conversation_states w)) as [stl|] eqn:Hl;
      [| discriminate].
    destruct (gather_known env form w l stl Hf Hne Hl) as [-> _].
    destruct (String.eqb_spec k l) as [->|Hkl].
    + rewrite store_get_set_same. rewrite Hl in Hk. injection Hk as ->.
      do 2 eexists. split; reflexivity.
    + rewrite (store_get_set_other l k _ _ Hkl).
      exists st, []. rewrite app_nil_r. split; [exact Hk | reflexivity].
Qed.

(** N successive gather callbacks for a lead with an entry, run: one
    appended turn per callback, the rest of the entry as before. *)
Lemma gather_history_run l ds : forall w st,
  l <> "" ->
  store_get l (conversation_states w) = Some st ->
  Forall (fun d => form_get "lead_id" (snd d) = Some l) ds ->
  exists st',
    store_get l (conversation_states (serve (map gathered ds) w)) = Some st'
    /\ conversation_history st'
       = (conversation_history st
          ++ map (fun d => user_turn (fst d) (snd d)) ds)%list
    /\ length (conversation_history st')
       = length (conversation_history st) + length ds
    /\ call_sid st' = call_sid st
    /\ current_step st' = current_step st
    /\ start_time st' = start_time st.
Proof.
  induction ds as [|[env form] ds IH]; intros w st Hl Hs Hall.
  - exists st. cbn [map serve]. rewrite app_nil_r, Nat.add_0_r.
    repeat split. exact Hs.
  - inversion Hall as [|d ds' Hd Hds]; subst. cbn [snd] in Hd.
    cbn [map serve gathered fst snd dispatch].
    destruct (gather_known env form w l st Hd Hl Hs) as [Hstates _].
    set (w1 := snd (handle_gather env form w)) in *.
    assert (Hs1 : store_get l (conversation_states w1)
                  = Some (append_turn (user_turn env form) st)).
    { rewrite Hstates. apply store_get_set_same. }
    destruct (IH w1 _ Hl Hs1 Hds) as (st' & Hget & Hhist & Hlen & H1 & H2 & H3).
    exists st'. cbn [append_turn conversation_history call_sid current_step
                     start_time] in *.
    rewrite <- app_assoc in Hhist. rewrite length_app in Hlen.
    cbn [length app map fst snd] in *.
    repeat split; try assumption. lia.
Qed.

(** C8.  For a lead with an entry, N successive gather callbacks append one
    user turn each and touch nothing else: the history afterwards is the
    prior history followed by N added turns, the k-th of which is a turn of
    speaker "user" whose message is the utterance ([SpeechResult]) of the
    k-th callback, with that callback's confidence and time; so the added
    turns list the N utterances in arrival order, the length has grown by N,
    and no earlier turn is reordered, replaced or removed. *)
Theorem gather_history_appends l ds : forall w st,
  l <> "" ->
  store_get l (conversation_states w) = Some st ->
  Forall (fun d => form_get "lead_id" (snd d) = Some l) ds ->
  exists st' added,
    store_get l (conversation_states (serve (map gathered ds) w)) = Some st'
    /\ conversation_history st' = (conversation_history st ++ added)%list
    /\ added
       = map (fun d =>
                mkTurn "user"
                       (form_get_default "SpeechResult" "" (snd d))
                       (form_get_default "Confidence" "0" (snd d))
                       (now (fst d)))
             ds
    /\ map speaker added = map (fun _ => "user") ds
    /\ map message added
       = map (fun d => form_get_default "SpeechResult" "" (snd d)) ds
    /\ length added = length ds
    /\ length (conversation_history st')
       = length (conversation_history st) + length ds
    /\ call_sid st' = call_sid st
    /\ current_step st' = current_step st
    /\ start_time st' = start_time st.
Proof.
  intros w st Hl Hs Hall.
  destruct (gather_history_run l ds w st Hl Hs Hall)
    as (st' & Hget & Hhist & Hlen & H1 & H2 & H3).
  exists st', (map (fun d => user_turn (fst d) (snd d)) ds).
  split; [exact Hget |]. split; [exact Hhist |].
  split; [unfold user_turn; reflexivity |].
  rewrite !map_map, length_map. unfold user_turn. cbn [speaker message].
  repeat split; assumption.
Qed.

(** *** The status callback *)

Lemma final_qualification_failure env lead w st e :
  store_get lead (conversation_states w) = Some st ->
  current_step st <> "completed" ->
  final_qualification_raises env lead st e ->
  exists calls,
    _process_final_qualification env lead w
    = (Returned tt,
       mkWorld (conversation_states w)
         (journal w ++ calls
          ++ [LoggerError ("Error processing final qualification for Lead "
                           ++ lead ++ ": " ++ e)])).
Proof.
  intros Hs Hstep Hfail. unfold _process_final_qualification. run_monad.
  rewrite Hs. apply String.eqb_neq in Hstep. rewrite Hstep.
  cbn [negb bind ret Monad_M fst snd conversation_states journal].
  destruct Hfail as [Hgpt | (r & Hgpt & Hfinal & Hcrm)]; rewrite Hgpt;
    cbn [bind ret Monad_M fst snd conversation_states journal].
  - eexists [_]. rewrite <- app_assoc. reflexivity.
  - rewrite Hfinal.
    destruct (get_or (qualification_result r) "unknown" =? "qualified");
      cbn [bind ret Monad_M fst snd conversation_states journal];
      rewrite Hcrm;
      cbn [bind ret Monad_M fst snd conversation_states journal];
      eexists [_; _]; rewrite <- !app_assoc; reflexivity.
Qed.

(** C5, as the code has it.  When the decision function or the CRM write
    raises during the final qualification of the status-completed fallback,
    the failure is logged, the callback is still answered [OK], and the
    store is left as it was: the lead's entry stays. *)
Theorem status_completed_failure_keeps_entry env form w lead st e :
  find_lead (form_get "CallSid" form) (conversation_states w) = Some lead ->
  lead <> "" ->
  form_get "CallStatus" form = Some "completed" ->
  store_get lead (conversation_states w) = Some st ->
  current_step st <> "completed" ->
  final_qualification_raises env lead st e ->
  fst (handle_call_status env form w) = Returned (PlainResponse "OK" 200)
  /\ conversation_states (snd (handle_call_status env form w))
     = conversation_states w
  /\ store_get lead (conversation_states (snd (handle_call_status env form w)))
     = Some st
  /\ In (LoggerError ("Error processing final qualification for Lead "
                      ++ lead ++ ": " ++ e))
        (journal (snd (handle_call_status env form w))).
Proof.
  intros Hfind Hne Hstatus Hs Hstep Hfail.
  unfold handle_call_status. run_monad.
  rewrite Hfind, Hstatus. apply String.eqb_neq in Hne. rewrite Hne.
  cbn [negb andb option_string_eqb]. rewrite String.eqb_refl.
  match goal with
  | |- context [_process_final_qualification env lead ?w1] =>
      destruct (final_qualification_failure env lead w1 st e Hs Hstep Hfail)
        as [calls ->]
  end.
  cbn [fst snd conversation_states journal].
  repeat split; [exact Hs |].
  rewrite !in_app_iff. right. right. left. reflexivity.
Qed.

(** *** The call to [L1], replayed *)

Import Scenario.

(** C1.  A final gather callback followed by the status-completed callback
    of the same call performs two terminal CRM writes for the one lead: the
    gather path writes and leaves the entry in place with its step
    unchanged, so the fallback finds it "not completed" and writes again. *)
Theorem final_gather_then_status_writes_twice :
  terminal_writes
    (journal
       (serve [(env_final, SpeechGathered gather_form);
               (env_final, StatusChanged status_form)]
              world_started))
  = [CrmMarkLeadQualified "L1" "Interested, has budget"
       [user_turn env_final gather_form];
     CrmMarkLeadQualified "L1" "Interested, has budget"
       [user_turn env_final gather_form]].
Proof. reflexivity. Qed.

(** C2.  After a gather callback whose decision is final the lead's entry
    is still in the store, step [greeting] included; only the fallback path
    deletes. *)
Theorem final_gather_leaves_entry :
  process_user_response env_final "L1" "yes interested"
    (append_turn (user_turn env_final gather_form)
       (fresh_state env_final "L1" (Some "CA1")))
  = Returned verdict_qualified
  /\ truthy (is_final verdict_qualified) = true
  /\ store_get "L1"
       (conversation_states
          (snd (handle_gather env_final gather_form world_started)))
     = Some (append_turn (user_turn env_final gather_form)
               (fresh_state env_final "L1" (Some "CA1"))).
Proof. repeat split. Qed.

(** The fallback path, for comparison, does delete the entry once its CRM
    write has gone through. *)
Example fallback_removes_entry :
  store_get "L1"
    (conversation_states
       (snd (handle_call_status env_final status_form world_started)))
  = None.
Proof. reflexivity. Qed.

(** Against C3 as stated: the CRM does not know [L1], the store is empty,
    and after the voice callback the store has an entry for [L1]. *)
Lemma unknown_lead_entry_created :
  lead_unresolved env_no_lead "L1" = true
  /\ store_get "L1" (conversation_states world0) = None
  /\ ~ store_get "L1"
         (conversation_states
            (snd (handle_voice_webhook env_no_lead "L1" voice_form world0)))
       = None.
Proof. repeat split. discriminate. Qed.

(** Against C5 as stated: the decision function raises on the fallback path
    and the entry of [L1] is not removed. *)
Lemma failed_fallback_entry_survives :
  process_final_qualification env_gpt_down "L1"
    (fresh_state env_final "L1" (Some "CA1"))
  = Raised "timeout"
  /\ store_get "L1" (conversation_states world_started)
     = Some (fresh_state env_final "L1" (Some "CA1"))
  /\ ~ store_get "L1"
         (conversation_states
            (snd (handle_call_status env_gpt_down status_form world_started)))
       = None.
Proof. repeat split. discriminate. Qed.

(** *** The theorems at work on the call to [L1] *)

Lemma voice_unresolved_lead_witness :
  lead_unresolved env_no_lead "L1" = true
  /\ ((exists msg,
         fst (handle_voice_webhook env_no_lead "L1" voice_form world0)
         = Returned (TwimlObject (_generate_error_response msg)))
      /\ conversation_states
           (snd (handle_voice_webhook env_no_lead "L1" voice_form world0))
         = [("L1", fresh_state env_no_lead "L1" (Some "CA1"))]).
Proof.
  split; [reflexivity |].
  apply (voice_unresolved_lead env_no_lead "L1" voice_form world0).
  reflexivity.
Defined.

Lemma voice_callback_keeps_existing_entry_witness :
  store_get "L1" (conversation_states world_started)
  = Some (fresh_state env_final "L1" (Some "CA1"))
  /\ (conversation_states
        (snd (handle_voice_webhook env_gpt_down "L1" [("CallSid", "CA2")]
                world_started))
      = conversation_states world_started
      /\ store_get "L1"
           (conversation_states
              (snd (handle_voice_webhook env_gpt_down "L1"
                      [("CallSid", "CA2")] world_started)))
         = Some (fresh_state env_final "L1" (Some "CA1"))).
Proof.
  split; [reflexivity |].
  apply (voice_callback_keeps_existing_entry env_gpt_down "L1"
           [("CallSid", "CA2")] world_started).
  reflexivity.
Defined.

Lemma gather_unknown_lead_rejected_witness :
  (form_get "lead_id" [("lead_id", "L2"); ("SpeechResult", "hello")] = None
   \/ exists l,
        form_get "lead_id" [("lead_id", "L2"); ("SpeechResult", "hello")]
        = Some l
        /\ store_get l (conversation_states world_started) = None)
  /\ (fst (handle_gather env_final
             [("lead_id", "L2"); ("SpeechResult", "hello")] world_started)
      = Returned (TwimlObject (_generate_error_response "Invalid lead ID"))
      /\ conversation_states
           (snd (handle_gather env_final
                   [("lead_id", "L2"); ("SpeechResult", "hello")]
                   world_started))
         = conversation_states world_started).
Proof.
  assert (H : form_get "lead_id" [("lead_id", "L2"); ("SpeechResult", "hello")]
              = None
              \/ exists l,
                   form_get "lead_id"
                     [("lead_id", "L2"); ("SpeechResult", "hello")]
                   = Some l
                   /\ store_get l (conversation_states world_started) = None).
  { right. exists "L2". split; reflexivity. }
  split; [exact H |].
  exact (gather_unknown_lead_rejected env_final _ world_started H).
Defined.


Lemma gather_history_appends_witness :
  "L1" <> ""
  /\ store_get "L1" (conversation_states world_started)
     = Some (fresh_state env_final "L1" (Some "CA1"))
  /\ exists st' added,
       store_get "L1"
         (conversation_states
            (serve (map gathered
                      [(env_final, gather_form);
                       (env_gpt_down,
                        [("lead_id", "L1");
                         ("SpeechResult", "around five lakh")])])
                   world_started))
       = Some st'
       /\ conversation_history st' = ([] ++ added)%list
       /\ added
          = [mkTurn "user" "yes interested" "0.93" "2024-05-01T10:00:00";
             mkTurn "user" "around five lakh" "0" "2024-05-01T10:02:00"]
       /\ map speaker added = ["user"; "user"]
       /\ map message added = ["yes interested"; "around five lakh"]
       /\ length added = 2
       /\ length (conversation_history st') = 0 + 2
       /\ call_sid st' = Some "CA1"
       /\ current_step st' = "greeting"
       /\ start_time st' = "2024-05-01T10:00:00".
Proof.
  repeat split; try discriminate.
  exact (gather_history_appends "L1"
           [(env_final, gather_form);
            (env_gpt_down,
             [("lead_id", "L1"); ("SpeechResult", "around five lakh")])]
           world_started (fresh_state env_final "L1" (Some "CA1"))
           ltac:(discriminate) eq_refl
           ltac:(repeat constructor)).
Defined.

Lemma status_completed_failure_keeps_entry_witness :
  find_lead (form_get "CallSid" status_form)
    (conversation_states world_started) = Some "L1"
  /\ final_qualification_raises env_gpt_down "L1"
       (fresh_state env_final "L1" (Some "CA1")) "timeout"
  /\ (fst (handle_call_status env_gpt_down status_form world_started)
      = Returned (PlainResponse "OK" 200)
      /\ conversation_states
           (snd (handle_call_status env_gpt_down status_form world_started))
         = conversation_states world_started
      /\ store_get "L1"
           (conversation_states
              (snd (handle_call_status env_gpt_down status_form
                      world_started)))
         = Some (fresh_state env_final "L1" (Some "CA1"))
      /\ In (LoggerError
               "Error processing final qualification for Lead L1: timeout")
            (journal
               (snd (handle_call_status env_gpt_down status_form
                       world_started)))).
Proof.
  split; [reflexivity |]. split; [left; reflexivity |].
  apply (status_completed_failure_keeps_entry env_gpt_down status_form
           world_started "L1" (fresh_state env_final "L1" (Some "CA1"))
           "timeout");
    try reflexivity; try discriminate.
  left. reflexivity.
Defined.

End WebhookFacts.

(* ===================================================================== *)
(** ** More on the formatter, and the call manager around it              *)
(* ===================================================================== *)

Section ManagerFacts.

Import Call.
Import Manager.

Variable unicode_digit : codepoint -> bool.
Variable self : TwilioCallManager.

Local Abbreviation kept := (Call.kept unicode_digit).
Local Abbreviation _format_phone_number :=
  (Call._format_phone_number unicode_digit).
Local Abbreviation initiate_call := (Manager.initiate_call unicode_digit self).
Local Abbreviation call_params := (Manager.call_params self).

(** Separators do not matter: formatting a number gives what formatting its
    digits and plus signs alone gives. *)
Theorem format_ignores_separators x :
  _format_phone_number x = _format_phone_number (filter kept x).
Proof.
  unfold Call._format_phone_number.
  rewrite (filter_kept_id unicode_digit (filter kept x)
             (forallb_kept_filter unicode_digit x)).
  reflexivity.
Qed.

(** Whatever the input, the formatted number starts with a plus and holds
    nothing but digits and plus signs. *)
Theorem format_phone_number_canonical x :
  startswith (lit "+") (_format_phone_number x) = true
  /\ forallb kept (_format_phone_number x) = true.
Proof.
  destruct (format_shape unicode_digit x) as [Hk Hp]. split; assumption.
Qed.

(** Eleven characters with a leading zero always become a +92 number with
    the zero dropped, whatever the second digit: the branch for "03" is a
    special case of the later branch for "0". *)
Theorem format_leading_zero_eleven x :
  length (filter kept x) = 11 ->
  startswith (lit "0") (filter kept x) = true ->
  _format_phone_number x = (lit "+92" ++ skipn 1 (filter kept x))%list.
Proof.
  intros Hlen H0. unfold Call._format_phone_number.
  set (s := filter kept x) in *. rewrite Hlen.
  destruct s as [|c s']; [discriminate Hlen |].
  change (lit "0") with [48%N] in H0. cbn [startswith] in H0.
  rewrite andb_true_r in H0. apply N.eqb_eq in H0. subst c.
  destruct s' as [|d s'']; [discriminate Hlen |].
  change (lit "+") with [43%N]. change (lit "91") with [57%N; 49%N].
  change (lit "03") with [48%N; 51%N]. change (lit "0") with [48%N].
  cbn [startswith negb andb Nat.eqb N.eqb Pos.eqb].
  match goal with
  | |- (if ?b then _ else _) = _ => destruct b
  end; reflexivity.
Qed.

(** *** [__init__] *)

(** The manager is constructed exactly when the four environment variables
    are all set to something non-empty; otherwise [__init__] raises. *)
Theorem init_succeeds_iff getenv make_client :
  (exists m, __init__ getenv make_client = Ok m)
  <-> (forall name,
         In name ["TWILIO_ACCOUNT_SID"; "TWILIO_AUTH_TOKEN";
                  "TWILIO_PHONE_NUMBER"; "WEBHOOK_BASE_URL"]%string ->
         is_set (getenv name) = true).
Proof.
  unfold __init__. cbn [forallb]. split.
  - intros [m Hm] name Hin.
    destruct (is_set (getenv "TWILIO_ACCOUNT_SID"%string)) eqn:Ha;
      destruct (is_set (getenv "TWILIO_AUTH_TOKEN"%string)) eqn:Ht;
      destruct (is_set (getenv "TWILIO_PHONE_NUMBER"%string)) eqn:Hn;
      destruct (is_set (getenv "WEBHOOK_BASE_URL"%string)) eqn:Hb;
      cbn [andb negb] in Hm; try discriminate Hm.
    cbn [In] in Hin.
    destruct Hin as [<- | [<- | [<- | [<- | []]]]]; assumption.
  - intros Hall.
    rewrite (Hall "TWILIO_ACCOUNT_SID"%string) by (cbn; tauto).
    rewrite (Hall "TWILIO_AUTH_TOKEN"%string) by (cbn; tauto).
    rewrite (Hall "TWILIO_PHONE_NUMBER"%string) by (cbn; tauto).
    rewrite (Hall "WEBHOOK_BASE_URL"%string) by (cbn; tauto).
    cbn [andb negb]. eexists. reflexivity.
Qed.

(** *** [initiate_call] *)

(** [initiate_call] returns [None] exactly when the request to Twilio
    raises, whatever the exception; when it returns a record, that record
    carries the identifier and status of the call Twilio created, the number
    that was dialled and the lead. *)
Theorem initiate_call_outcome lead_phone lead lead_name :
  (fst (initiate_call lead_phone lead lead_name) = None
   <-> exists f,
         calls_create (client self)
           (call_params (_format_phone_number lead_phone) lead)
         = Raises f)
  /\ (forall info,
        fst (initiate_call lead_phone lead lead_name) = Some info ->
        exists call,
          calls_create (client self)
            (call_params (_format_phone_number lead_phone) lead)
          = Ok call
          /\ i_call_sid info = sid call
          /\ i_status info = status call
          /\ i_to info = _format_phone_number lead_phone
          /\ i_lead_id info = lead).
Proof.
  unfold Manager.initiate_call.
  destruct (calls_create (client self)
              (call_params (_format_phone_number lead_phone) lead))
    as [call | [m | m]]; cbn [fst]; split.
  - split; [discriminate | intros [f Hf]; discriminate Hf].
  - intros info [= <-]. exists call. repeat split.
  - split; [intros _; eexists; reflexivity | reflexivity].
  - discriminate.
  - split; [intros _; eexists; reflexivity | reflexivity].
  - discriminate.
Qed.

(** Twilio is asked exactly once, and for a number in canonical form: the
    [to] of the request starts with a plus and holds only digits and plus
    signs, and the callbacks it registers are routes under the base URL with
    the lead in the voice route. *)
Theorem initiate_call_request lead_phone lead lead_name :
  exists params rest,
    snd (initiate_call lead_phone lead lead_name)
    = CallsCreate params :: rest
    /\ (forall p, ~ In (CallsCreate p) rest)
    /\ startswith (lit "+") (p_to params) = true
    /\ forallb kept (p_to params) = true
    /\ p_from_ params = phone_number self
    /\ p_url params
       = (webhook_base_url self ++ lit "/twilio/voice/" ++ lead)%list
    /\ p_status_callback params
       = (webhook_base_url self ++ lit "/twilio/status")%list
    /\ p_record params = true.
Proof.
  destruct (format_shape unicode_digit lead_phone) as [Hk Hp].
  exists (call_params (_format_phone_number lead_phone) lead).
  unfold Manager.initiate_call.
  destruct (calls_create (client self)
              (call_params (_format_phone_number lead_phone) lead))
    as [call | [m | m]]; cbn [snd];
    eexists; (split; [reflexivity |]);
    (split;
     [ intros p Hin; cbn in Hin;
       repeat destruct Hin as [Hin | Hin]; solve [discriminate | contradiction]
     | cbn [p_to p_from_ p_url p_status_callback p_record Manager.call_params];
       repeat split; assumption ]).
Qed.

(** *** The status, hang-up and history methods *)

(** [get_call_status], [end_call] and [get_call_logs] swallow a
    [TwilioException] (answering [None], [False] and the empty list) and let
    every other exception through to the caller. *)
Theorem only_twilio_exceptions_are_caught call_id limit m :
  (calls_fetch (client self) call_id = Raises (TwilioException m) ->
   fst (get_call_status self call_id) = Ok None)
  /\ (calls_fetch (client self) call_id = Raises (OtherException m) ->
      fst (get_call_status self call_id) = Raises (OtherException m))
  /\ (calls_update (client self) call_id (lit "completed")
      = Raises (TwilioException m) ->
      fst (end_call self call_id) = Ok false)
  /\ (calls_update (client self) call_id (lit "completed")
      = Raises (OtherException m) ->
      fst (end_call self call_id) = Raises (OtherException m))
  /\ (calls_list (client self) (match limit with Some n => n | None => 50 end)
      = Raises (TwilioException m) ->
      fst (get_call_logs self limit) = Ok [])
  /\ (calls_list (client self) (match limit with Some n => n | None => 50 end)
      = Raises (OtherException m) ->
      fst (get_call_logs self limit) = Raises (OtherException m)).
Proof.
  unfold get_call_status, end_call, get_call_logs.
  repeat split; intros ->; reflexivity.
Qed.

(** The history lists the calls Twilio returned, one row each and in the
    same order; Twilio is asked for 50 calls when no limit is given. *)
Theorem get_call_logs_rows limit calls :
  calls_list (client self) (match limit with Some n => n | None => 50 end)
  = Ok calls ->
  exists rows,
    get_call_logs self limit
    = (Ok rows, [CallsList (match limit with Some n => n | None => 50 end)])
    /\ length rows = length calls
    /\ map l_sid rows = map sid calls
    /\ map l_from_ rows = map from_formatted calls.
Proof.
  intros H. unfold get_call_logs. rewrite H.
  eexists. split; [reflexivity |].
  rewrite length_map, !map_map. repeat split.
Qed.

(** [test_connection] never raises: it answers [True] when the account can
    be fetched and [False] on any exception, logging either way. *)
Theorem test_connection_true_iff :
  (fst (test_connection self) = true
   <-> exists name, accounts_fetch (client self) (account_sid self) = Ok name)
  /\ exists line,
       snd (test_connection self)
       = [AccountsFetch (account_sid self); line]
       /\ (fst (test_connection self) = false ->
           exists msg, line = LogError msg).
Proof.
  unfold test_connection.
  destruct (accounts_fetch (client self) (account_sid self)) as [name | f];
    cbn [fst snd]; split.
  - split; [intros _; exists name; reflexivity | reflexivity].
  - eexists. split; [reflexivity | discriminate].
  - split; [discriminate | intros [n Hn]; discriminate Hn].
  - eexists. split; [reflexivity |]. intros _. eexists. reflexivity.
Qed.

End ManagerFacts.

(* ===================================================================== *)
(** ** How the handlers conduct themselves                                *)
(* ===================================================================== *)

Section HandlerConduct.

Import Webhook.
Import Conduct.
Import Scenario.
Import MonadNotation.
Local Open Scope string_scope.
Local Open Scope monad_scope.

Ltac reduce_run :=
  cbn [bind ret Monad_M fst snd conversation_states journal negb andb].

Ltac unfold_run :=
  unfold try_except, state_of, del_state, get_states, put_states,
    crm_get_lead_by_id, crm_mark_lead_qualified, crm_mark_lead_disqualified,
    gpt_process_user_response, gpt_process_final_qualification,
    logger_info, logger_error, logger_log_call_end, call, emit, raise;
  reduce_run.

(** Splits on the innermost thing the run is waiting for. *)
Ltac split_run :=
  match goal with
  | |- context [match ?x with _ => _ end] =>
      lazymatch x with
      | context [match _ with _ => _ end] => fail
      | _ => destruct x eqn:?
      end
  end;
  reduce_run.

(** *** No exception leaves a view function *)

Lemma try_except_returns {A} (body : M A) handler w :
  (forall e w', exists a, fst (handler e w') = Returned a) ->
  exists a, fst (try_except body handler w) = Returned a.
Proof.
  intros H. unfold try_except.
  destruct (body w) as [[a | e] w']; [exists a; reflexivity | apply H].
Qed.

(** Whatever the collaborators do, every view function returns a reply: no
    exception reaches Flask. *)
Theorem dispatch_never_raises env r w :
  exists reply, fst (dispatch env r w) = Returned reply.
Proof.
  destruct r; cbn [dispatch];
    [ unfold handle_voice_webhook | unfold handle_gather
    | unfold handle_call_status | unfold handle_recording ];
    apply try_except_returns; intros e w'; unfold_run;
    eexists; reflexivity.
Qed.

(** The final qualification swallows every exception. *)
Lemma final_qualification_returns env lead w :
  fst (_process_final_qualification env lead w) = Returned tt.
Proof.
  unfold _process_final_qualification. unfold_run.
  repeat split_run; reflexivity.
Qed.

(** A status callback, run: one log line, then the final qualification if
    the call's lead is found and the call is reported completed. *)
Lemma status_run env form w :
  handle_call_status env form w
  = (Returned (PlainResponse "OK" 200),
     let w1 := mkWorld (conversation_states w)
                       (journal w ++ [status_log form]) in
     match find_lead (form_get "CallSid" form) (conversation_states w) with
     | Some lead =>
         if negb (lead =? "")
            && option_string_eqb (form_get "CallStatus" form)
                 (Some "completed")
         then snd (_process_final_qualification env lead w1)
         else w1
     | None => w1
     end).
Proof.
  unfold handle_call_status, status_log. unfold_run.
  destruct (find_lead _ _) as [lead |]; reduce_run; [| reflexivity].
  destruct (negb (lead =? "") && _); reduce_run; [| reflexivity].
  match goal with
  | |- context [_process_final_qualification env lead ?w1] =>
      pose proof (final_qualification_returns env lead w1) as Hret;
      destruct (_process_final_qualification env lead w1) as [o w2]
  end.
  cbn [fst] in Hret. subst o. reflexivity.
Qed.

Lemma recording_reply form w :
  fst (handle_recording form w) = Returned (PlainResponse "OK" 200).
Proof.
  unfold handle_recording. unfold_run. repeat split_run; reflexivity.
Qed.

(** The status and recording callbacks are always answered [OK] with status
    200: the [Error]/500 branch of either handler cannot be reached, since
    the final qualification swallows its own exceptions. *)
Theorem status_and_recording_always_ok env form w :
  fst (handle_call_status env form w) = Returned (PlainResponse "OK" 200)
  /\ fst (handle_recording form w) = Returned (PlainResponse "OK" 200).
Proof.
  split; [rewrite status_run; reflexivity | apply recording_reply].
Qed.

(** The recording callback only logs: the store is untouched and neither
    the CRM nor the decision function is consulted. *)
Theorem recording_only_logs form w :
  exists lines,
    snd (handle_recording form w)
    = mkWorld (conversation_states w) (journal w ++ lines)
    /\ existsb is_collaborator_call lines = false.
Proof.
  unfold handle_recording. unfold_run.
  repeat split_run; rewrite <- ?app_assoc; eexists;
    (split; [reflexivity | reflexivity]).
Qed.

(** *** What the caller hears *)

Ltac shape_found :=
  first [ exists [] ; reflexivity
        | eexists [_; _]; reflexivity ].

Lemma follow_up_shape env lead g w t :
  fst (_generate_follow_up_response env lead g w) = Returned t ->
  speaks_then_hangs_up t.
Proof.
  unfold _generate_follow_up_response, speaks_then_hangs_up. unfold_run.
  repeat split_run; cbn [fst]; intros [= <-]; eexists; shape_found.
Qed.

(** Every TwiML reply, the error replies included, begins by speaking to
    the caller and ends by hanging up. *)
Theorem replies_speak_then_hang_up env r w reply t :
  fst (dispatch env r w) = Returned reply ->
  twiml_of reply = Some t ->
  speaks_then_hangs_up t.
Proof.
  destruct r as [lead form | form | form | form]; cbn [dispatch].
  - unfold handle_voice_webhook, speaks_then_hangs_up. unfold_run.
    repeat split_run; cbn [fst]; intros [= <-]; cbn [twiml_of];
      intros [= <-]; eexists; shape_found.
  - unfold handle_gather. unfold try_except.
    match goal with
    | |- context [match ?body w with _ => _ end] =>
        destruct (body w) as [[reply' | e] w'] eqn:Hbody
    end; cbn [fst].
    + intros [= <-]. revert Hbody. unfold_run.
      destruct (invalid_lead _ _); reduce_run.
      * intros [= <- _]. cbn [twiml_of]. intros [= <-].
        eexists. shape_found.
      * repeat split_run; try discriminate;
          try (intros [= <- _]; cbn [twiml_of]; intros [= <-];
               eapply follow_up_shape;
               match goal with
               | H : _generate_follow_up_response _ _ _ _ = _ |- _ =>
                   rewrite H; reflexivity
               end).
    + unfold_run. intros [= <-]. cbn [twiml_of]. intros [= <-].
      eexists. shape_found.
  - rewrite status_run. cbn [fst]. intros [= <-]. discriminate.
  - rewrite recording_reply. intros [= <-]. discriminate.
Qed.

(** *** The store as a dictionary *)

Lemma store_get_none_iff k s : store_get k s = None <-> ~ In k (map fst s).
Proof.
  induction s as [|[k' v] s IH]; cbn [store_get map fst In]; [tauto |].
  destruct (String.eqb_spec k' k) as [-> | Hne].
  - split; [discriminate | intros H; exfalso; apply H; left; reflexivity].
  - rewrite IH. tauto.
Qed.

Lemma store_get_in k s st : store_get k s = Some st -> In (k, st) s.
Proof.
  induction s as [|[k' v] s IH]; cbn [store_get In]; [discriminate |].
  destruct (String.eqb_spec k' k) as [-> | Hne].
  - intros [= ->]. left. reflexivity.
  - intros H. right. apply IH, H.
Qed.

Lemma store_get_del_other k l s :
  k <> l -> store_get k (store_del l s) = store_get k s.
Proof.
  intros Hne. induction s as [|[k' v] s IH]; cbn [store_get store_del];
    [reflexivity |].
  destruct (String.eqb_spec k' l) as [-> | Hl].
  - destruct (String.eqb_spec l k); [congruence | reflexivity].
  - cbn [store_get]. rewrite IH. reflexivity.
Qed.

Lemma store_get_del_same k s :
  NoDup (map fst s) -> store_get k (store_del k s) = None.
Proof.
  induction s as [|[k' v] s IH]; cbn [store_get store_del map fst];
    [reflexivity |].
  intros Hnd. inversion Hnd as [| x xs Hnotin Hnd']; subst.
  destruct (String.eqb_spec k' k) as [-> | Hne].
  - apply store_get_none_iff, Hnotin.
  - cbn [store_get]. destruct (String.eqb_spec k' k); [contradiction |].
    apply IH, Hnd'.
Qed.

Lemma store_del_keys_incl l s x : In x (store_del l s) -> In x s.
Proof.
  induction s as [|[k' v] s IH]; cbn [store_del]; [tauto |].
  destruct (k' =? l); cbn [In]; [tauto |].
  intros [H | H]; [left; exact H | right; apply IH, H].
Qed.

Lemma option_string_eqb_spec a b :
  option_string_eqb a b = true <-> a = b.
Proof.
  destruct a as [x |], b as [y |]; cbn [option_string_eqb];
    try (split; [discriminate | discriminate]); [| tauto].
  rewrite String.eqb_eq. split; [intros ->; reflexivity | intros [= ->]; reflexivity].
Qed.

(** *** The scan for the call's lead *)

Lemma find_lead_none_iff sid s :
  find_lead sid s = None
  <-> Forall (fun kv => call_sid (snd kv) <> sid) s.
Proof.
  induction s as [|[k v] s IH]; cbn [find_lead].
  - split; [constructor | reflexivity].
  - destruct (option_string_eqb (call_sid v) sid) eqn:E.
    + apply option_string_eqb_spec in E.
      split; [discriminate |].
      intros H. inversion H as [| x xs Hx _]; subst. contradiction.
    + assert (Hne : call_sid v <> sid).
      { intros Heq. apply option_string_eqb_spec in Heq. congruence. }
      rewrite IH. split.
      * intros H. constructor; assumption.
      * intros H. inversion H; assumption.
Qed.

Lemma find_lead_some sid s lead :
  find_lead sid s = Some lead ->
  exists before st after,
    s = (before ++ (lead, st) :: after)%list
    /\ call_sid st = sid
    /\ Forall (fun kv => call_sid (snd kv) <> sid) before.
Proof.
  induction s as [|[k v] s IH]; cbn [find_lead]; [discriminate |].
  destruct (option_string_eqb (call_sid v) sid) eqn:E.
  - apply option_string_eqb_spec in E. intros [= <-].
    exists [], v, s. repeat split; [exact E | constructor].
  - assert (Hne : call_sid v <> sid).
    { intros Heq. apply option_string_eqb_spec in Heq. congruence. }
    intros Hfind.
    destruct (IH Hfind) as (before & st & after & -> & Hsid & Hb).
    exists ((k, v) :: before), st, after.
    repeat split; [exact Hsid | constructor; assumption].
Qed.

(** [find_lead] answers with a lead whose entry carries the call
    identifier asked for, the first such entry of the store; it answers
    nothing exactly when no entry carries it. *)
Theorem find_lead_sound_and_complete sid s :
  (forall lead,
     find_lead sid s = Some lead ->
     exists before st after,
       s = (before ++ (lead, st) :: after)%list
       /\ call_sid st = sid
       /\ Forall (fun kv => call_sid (snd kv) <> sid) before)
  /\ (find_lead sid s = None
      <-> Forall (fun kv => call_sid (snd kv) <> sid) s).
Proof.
  split; [intros lead; apply find_lead_some | apply find_lead_none_iff].
Qed.

(** *** The status callback, case by case *)

(** A status callback that does not report "completed", or whose call
    matches no entry, does nothing but log: store untouched, no collaborator
    consulted. *)
Theorem status_callback_noop env form w :
  form_get "CallStatus" form <> Some "completed"
  \/ find_lead (form_get "CallSid" form) (conversation_states w) = None ->
  handle_call_status env form w
  = (Returned (PlainResponse "OK" 200),
     mkWorld (conversation_states w) (journal w ++ [status_log form])).
Proof.
  intros H. rewrite status_run. cbv zeta.
  destruct H as [Hstatus | ->]; [| reflexivity].
  destruct (find_lead _ _) as [lead |]; [| reflexivity].
  destruct (option_string_eqb (form_get "CallStatus" form) (Some "completed"))
    eqn:E.
  - apply option_string_eqb_spec in E. contradiction.
  - rewrite andb_false_r. reflexivity.
Qed.

Lemma final_qualification_success env lead w st g :
  store_get lead (conversation_states w) = Some st ->
  current_step st <> "completed" ->
  process_final_qualification env lead st = Returned g ->
  truthy (is_final g) = true ->
  verdict_write_outcome env lead g (conversation_history st) = Returned tt ->
  _process_final_qualification env lead w
  = (Returned tt,
     mkWorld (store_del lead (conversation_states w))
       (journal w
        ++ [GptProcessFinalQualification lead st;
            verdict_write lead g (conversation_history st);
            LoggerCallEnd lead
              (get_or (qualification_result g) "unknown")])).
Proof.
  intros Hs Hstep Hgpt Hfinal Hcrm.
  unfold _process_final_qualification. unfold_run.
  rewrite Hs. apply String.eqb_neq in Hstep. rewrite Hstep. reduce_run.
  rewrite Hgpt. reduce_run. rewrite Hfinal.
  unfold verdict_write_outcome in Hcrm. unfold verdict_write.
  destruct (get_or (qualification_result g) "unknown" =? "qualified");
    reduce_run; rewrite Hcrm; reduce_run;
    unfold store_mem; rewrite Hs; reduce_run;
    rewrite <- !app_assoc; reflexivity.
Qed.

(** The fallback at work.  When the call of a tracked lead is reported
    completed, the decision function gives a final verdict and the CRM
    accepts the write, then the CRM is written exactly once, with the stored
    history, the end of the call is logged, and the lead's entry is deleted
    from the store. *)
Theorem status_completed_finalizes env form w lead st g :
  find_lead (form_get "CallSid" form) (conversation_states w) = Some lead ->
  lead <> "" ->
  form_get "CallStatus" form = Some "completed" ->
  store_get lead (conversation_states w) = Some st ->
  current_step st <> "completed" ->
  process_final_qualification env lead st = Returned g ->
  truthy (is_final g) = true ->
  verdict_write_outcome env lead g (conversation_history st) = Returned tt ->
  handle_call_status env form w
  = (Returned (PlainResponse "OK" 200),
     mkWorld (store_del lead (conversation_states w))
       (journal w
        ++ [status_log form;
            GptProcessFinalQualification lead st;
            verdict_write lead g (conversation_history st);
            LoggerCallEnd lead
              (get_or (qualification_result g) "unknown")]))
  /\ is_terminal_write (verdict_write lead g (conversation_history st))
     = true
  /\ (NoDup (map fst (conversation_states w)) ->
      store_get lead (store_del lead (conversation_states w)) = None).
Proof.
  intros Hfind Hne Hstatus Hs Hstep Hgpt Hfinal Hcrm.
  rewrite status_run. cbv zeta. rewrite Hfind, Hstatus.
  apply String.eqb_neq in Hne. rewrite Hne.
  cbn [negb andb option_string_eqb]. rewrite String.eqb_refl.
  rewrite (final_qualification_success env lead
             (mkWorld (conversation_states w) (journal w ++ [status_log form]))
             st g Hs Hstep Hgpt Hfinal Hcrm).
  cbn [snd conversation_states journal]. rewrite <- app_assoc.
  repeat split.
  - unfold verdict_write.
    destruct (get_or (qualification_result g) "unknown" =? "qualified");
      reflexivity.
  - apply store_get_del_same.
Qed.

(** When the decision function does not give a final verdict on the
    fallback path, nothing is written to the CRM and the entry stays: the
    call is over but its state is kept. *)
Theorem status_completed_without_verdict env form w lead st g :
  find_lead (form_get "CallSid" form) (conversation_states w) = Some lead ->
  lead <> "" ->
  form_get "CallStatus" form = Some "completed" ->
  store_get lead (conversation_states w) = Some st ->
  current_step st <> "completed" ->
  process_final_qualification env lead st = Returned g ->
  truthy (is_final g) = false ->
  handle_call_status env form w
  = (Returned (PlainResponse "OK" 200),
     mkWorld (conversation_states w)
       (journal w
        ++ [status_log form; GptProcessFinalQualification lead st])).
Proof.
  intros Hfind Hne Hstatus Hs Hstep Hgpt Hfinal.
  rewrite status_run. cbv zeta. rewrite Hfind, Hstatus.
  apply String.eqb_neq in Hne. rewrite Hne.
  cbn [negb andb option_string_eqb]. rewrite String.eqb_refl.
  unfold _process_final_qualification. unfold_run.
  rewrite Hs. apply String.eqb_neq in Hstep. rewrite Hstep. reduce_run.
  rewrite Hgpt. reduce_run. rewrite Hfinal. reduce_run.
  rewrite <- app_assoc. reflexivity.
Qed.

(** *** The gather callback, case by case *)

(** A gather callback on a known lead, run up to the follow-up response. *)
Lemma gather_run env form w l st :
  form_get "lead_id" form = Some l -> l <> "" ->
  store_get l (conversation_states w) = Some st ->
  let speech := form_get_default "SpeechResult" "" form in
  let st' := append_turn (user_turn env form) st in
  let w1 := mkWorld (store_set l st' (conversation_states w))
                    (journal w
                     ++ [gather_log form;
                         GptProcessUserResponse l speech st']) in
  let failed e w2 :=
    (Returned (TwimlObject (_generate_error_response "An error occurred")),
     mkWorld (conversation_states w2)
       (journal w2 ++ [LoggerError ("Error handling gather input: " ++ e)]))
  in
  store_get l (conversation_states w1) = Some st'
  /\ handle_gather env form w
     = match process_user_response env l speech st' with
       | Raised e => failed e w1
       | Returned g =>
           match _generate_follow_up_response env l g w1 with
           | (Returned t, w2) => (Returned (XmlResponse t), w2)
           | (Raised e, w2) => failed e w2
           end
       end.
Proof.
  intros Hf Hl Hs speech st' w1 failed.
  split; [apply store_get_set_same |].
  subst w1 failed. unfold handle_gather, gather_log. unfold_run.
  rewrite Hf, (valid_lead l st _ Hl Hs).
  cbn [get_or]. reduce_run. rewrite Hs. reduce_run.
  rewrite store_get_set_same. reduce_run.
  fold speech. fold st'.
  rewrite <- !app_assoc. cbn [app].
  destruct (process_user_response env l speech st') as [g | e]; reduce_run;
    [| reflexivity].
  destruct (_generate_follow_up_response env l g _) as [[t | e] w2];
    reflexivity.
Qed.

Lemma follow_up_continues env l g w :
  truthy (is_final g) = false ->
  _generate_follow_up_response env l g w
  = (Returned
       [Say (aditi (get_or (next_question g)
                      "Kya aap mujhe aur detail de sakte hain?"));
        gather_speech l;
        Say (aditi "Thank you for your time. Goodbye!");
        Hangup],
     w).
Proof.
  intros H. unfold _generate_follow_up_response. rewrite H. reflexivity.
Qed.

Lemma follow_up_final env l g w st :
  truthy (is_final g) = true ->
  store_get l (conversation_states w) = Some st ->
  _generate_follow_up_response env l g w
  = let w1 := mkWorld (conversation_states w)
                (journal w ++ [verdict_write l g (conversation_history st)])
    in
    match verdict_write_outcome env l g (conversation_history st) with
    | Returned _ =>
        (Returned
           [Say (aditi
                   (if get_or (qualification_result g) "unknown"
                       =? "qualified"
                    then closing_qualified else closing_other));
            Hangup],
         mkWorld (conversation_states w)
           (journal w1
            ++ [LoggerCallEnd l
                  (get_or (qualification_result g) "unknown")]))
    | Raised e => (Raised e, w1)
    end.
Proof.
  intros Hfinal Hs.
  unfold _generate_follow_up_response, verdict_write, verdict_write_outcome,
    closing_qualified, closing_other.
  rewrite Hfinal. unfold_run.
  destruct (get_or (qualification_result g) "unknown" =? "qualified");
    reduce_run; rewrite Hs; reduce_run;
    match goal with
    | |- context [match ?o with Returned _ => _ | Raised _ => _ end] =>
        destruct o
    end; reflexivity.
Qed.

(** A verdict that is not final keeps the dialogue going: the caller hears
    the next question (a stock question if the decision gave none) and is
    listened to again; the turn is stored and the CRM is not written. *)
Theorem gather_continues env form w l st g :
  form_get "lead_id" form = Some l -> l <> "" ->
  store_get l (conversation_states w) = Some st ->
  process_user_response env l (form_get_default "SpeechResult" "" form)
    (append_turn (user_turn env form) st) = Returned g ->
  truthy (is_final g) = false ->
  handle_gather env form w
  = (Returned
       (XmlResponse
          [Say (aditi (get_or (next_question g)
                         "Kya aap mujhe aur detail de sakte hain?"));
           gather_speech l;
           Say (aditi "Thank you for your time. Goodbye!");
           Hangup]),
     mkWorld
       (store_set l (append_turn (user_turn env form) st)
          (conversation_states w))
       (journal w
        ++ [gather_log form;
            GptProcessUserResponse l
              (form_get_default "SpeechResult" "" form)
              (append_turn (user_turn env form) st)])).
Proof.
  intros Hf Hl Hs Hgpt Hfinal.
  destruct (gather_run env form w l st Hf Hl Hs) as [_ ->].
  rewrite Hgpt, (follow_up_continues env l g _ Hfinal). reflexivity.
Qed.

(** A final verdict "qualified" that the CRM accepts: one call to
    [mark_lead_qualified], for this lead, with the verdict's summary and the
    history up to and including the utterance just heard; the caller hears
    the congratulation and the call ends. *)
Theorem gather_final_qualified env form w l st g :
  form_get "lead_id" form = Some l -> l <> "" ->
  store_get l (conversation_states w) = Some st ->
  process_user_response env l (form_get_default "SpeechResult" "" form)
    (append_turn (user_turn env form) st) = Returned g ->
  truthy (is_final g) = true ->
  qualification_result g = Some "qualified" ->
  mark_lead_qualified env l (get_or (summary g) "")
    (conversation_history st ++ [user_turn env form]) = Returned tt ->
  handle_gather env form w
  = (Returned (XmlResponse [Say (aditi closing_qualified); Hangup]),
     mkWorld
       (store_set l (append_turn (user_turn env form) st)
          (conversation_states w))
       (journal w
        ++ [gather_log form;
            GptProcessUserResponse l
              (form_get_default "SpeechResult" "" form)
              (append_turn (user_turn env form) st);
            CrmMarkLeadQualified l (get_or (summary g) "")
              (conversation_history st ++ [user_turn env form]);
            LoggerCallEnd l "qualified"])).
Proof.
  intros Hf Hl Hs Hgpt Hfinal Hq Hcrm.
  destruct (gather_run env form w l st Hf Hl Hs) as [Hs1 ->].
  rewrite Hgpt, (follow_up_final env l g _ _ Hfinal Hs1).
  unfold verdict_write, verdict_write_outcome.
  rewrite Hq. cbn [get_or String.eqb Ascii.eqb Bool.eqb append_turn
                   conversation_history].
  rewrite Hcrm. cbv zeta. cbn [conversation_states journal].
  rewrite <- !app_assoc. reflexivity.
Qed.

(** Any other final verdict, a missing one included, is written as a
    disqualification: one call to [mark_lead_disqualified] with the reason
    ("No specific reason" if none) and the history, but not the lead's
    identifier; the caller hears the polite goodbye. *)
Theorem gather_final_other_verdict env form w l st g :
  form_get "lead_id" form = Some l -> l <> "" ->
  store_get l (conversation_states w) = Some st ->
  process_user_response env l (form_get_default "SpeechResult" "" form)
    (append_turn (user_turn env form) st) = Returned g ->
  truthy (is_final g) = true ->
  get_or (qualification_result g) "unknown" <> "qualified" ->
  mark_lead_disqualified env (get_or (reason g) "No specific reason")
    (conversation_history st ++ [user_turn env form]) = Returned tt ->
  handle_gather env form w
  = (Returned (XmlResponse [Say (aditi closing_other); Hangup]),
     mkWorld
       (store_set l (append_turn (user_turn env form) st)
          (conversation_states w))
       (journal w
        ++ [gather_log form;
            GptProcessUserResponse l
              (form_get_default "SpeechResult" "" form)
              (append_turn (user_turn env form) st);
            CrmMarkLeadDisqualified
              (get_or (reason g) "No specific reason")
              (conversation_history st ++ [user_turn env form]);
            LoggerCallEnd l (get_or (qualification_result g) "unknown")])).
Proof.
  intros Hf Hl Hs Hgpt Hfinal Hq Hcrm.
  destruct (gather_run env form w l st Hf Hl Hs) as [Hs1 ->].
  rewrite Hgpt, (follow_up_final env l g _ _ Hfinal Hs1).
  unfold verdict_write, verdict_write_outcome.
  apply String.eqb_neq in Hq. rewrite Hq.
  cbn [append_turn conversation_history].
  rewrite Hcrm. cbv zeta. cbn [conversation_states journal].
  rewrite <- !app_assoc. reflexivity.
Qed.

(** A failure after the turn is in (the decision function raises, or the
    CRM refuses the write of a final verdict) is answered with the spoken
    apology and logged; the turn is not taken back, and the end of the call
    is not logged. *)
Theorem gather_failure_keeps_turn env form w l st e :
  form_get "lead_id" form = Some l -> l <> "" ->
  store_get l (conversation_states w) = Some st ->
  user_response_raises env l (form_get_default "SpeechResult" "" form)
    (append_turn (user_turn env form) st) e ->
  exists calls,
    handle_gather env form w
    = (Returned (TwimlObject (_generate_error_response "An error occurred")),
       mkWorld
         (store_set l (append_turn (user_turn env form) st)
            (conversation_states w))
         (journal w
          ++ gather_log form :: calls
          ++ [LoggerError ("Error handling gather input: " ++ e)]))
    /\ forallb is_collaborator_call calls = true.
Proof.
  intros Hf Hl Hs Hfail.
  destruct (gather_run env form w l st Hf Hl Hs) as [Hs1 ->].
  destruct Hfail as [Hgpt | (g & Hgpt & Hfinal & Hcrm)]; rewrite Hgpt.
  - eexists [_]. cbn [conversation_states journal].
    rewrite <- !app_assoc. split; reflexivity.
  - rewrite (follow_up_final env l g _ _ Hfinal Hs1).
    unfold verdict_write, verdict_write_outcome.
    cbn [append_turn conversation_history] in *.
    destruct (get_or (qualification_result g) "unknown" =? "qualified");
      rewrite Hcrm; cbv zeta; cbn [conversation_states journal];
      eexists [_; _]; rewrite <- !app_assoc; split; reflexivity.
Qed.

(** An empty [lead_id] is refused like a missing one, even if the store has
    an entry under the empty key. *)
Theorem gather_empty_lead_id_rejected env form w :
  form_get "lead_id" form = Some "" ->
  handle_gather env form w
  = (Returned (TwimlObject (_generate_error_response "Invalid lead ID")),
     mkWorld (conversation_states w) (journal w ++ [gather_log form])).
Proof.
  intros H. apply gather_invalid. rewrite H. reflexivity.
Qed.

(** *** The voice callback on a lead the CRM knows *)

(** When the CRM returns a record for the lead, the caller is greeted: the
    reply is the greeting TwiML built from that record, the CRM is consulted
    once and nothing else is, and the store holds the lead's entry (the old
    one if there was one, a fresh one otherwise). *)
Theorem voice_greets_resolved_lead env lead form w info :
  get_lead_by_id env lead = Returned (Some info) -> info <> [] ->
  handle_voice_webhook env lead form w
  = (Returned (XmlResponse (_generate_voice_response lead info)),
     mkWorld
       (match store_get lead (conversation_states w) with
        | Some _ => conversation_states w
        | None =>
            (conversation_states w
             ++ [(lead, fresh_state env lead (form_get "CallSid" form))])%list
        end)
       (journal w
        ++ [LoggerInfo ("Voice webhook received for Lead " ++ lead
                        ++ ", Call SID: " ++ fmt (form_get "CallSid" form));
            LoggerInfo ("Call from: " ++ fmt (form_get "From" form)
                        ++ ", to: " ++ fmt (form_get "To" form));
            CrmGetLeadById lead;
            LoggerInfo ("Generated TwiML response for Lead " ++ lead)])).
Proof.
  intros Hcrm Hinfo. unfold handle_voice_webhook, store_mem. unfold_run.
  destruct info as [| field fields]; [contradiction |].
  destruct (store_get lead (conversation_states w)) eqn:Hget; reduce_run;
    try rewrite (store_set_absent _ _ _ Hget);
    rewrite Hcrm; reduce_run; cbn [lead_missing get_or]; reduce_run;
    rewrite <- !app_assoc; reflexivity.
Qed.

Lemma list_ascii_of_string_app a b :
  list_ascii_of_string (a ++ b)
  = (list_ascii_of_string a ++ list_ascii_of_string b)%list.
Proof.
  induction a as [| c a IH]; cbn; [reflexivity | rewrite IH; reflexivity].
Qed.

Lemma strip_front_blank t : forall n l,
  length l <= n -> all_space l = true ->
  strip_front false (l ++ t) = strip_front false t.
Proof.
  induction n as [| n IH]; intros l Hlen Hall.
  - destruct l; [reflexivity | cbn in Hlen; lia].
  - destruct l as [| c r]; [reflexivity |].
    cbn [all_space] in Hall. cbn [app strip_front length] in *.
    destruct (is_space c); [apply IH; [lia | exact Hall] |].
    destruct r as [| c2 r2]; [discriminate Hall |].
    cbn [app length] in *.
    destruct (is_space2 c c2); [apply IH; [lia | exact Hall] |].
    destruct r2 as [| c3 r3]; [discriminate Hall |].
    cbn [app length] in *.
    apply andb_true_iff in Hall as [H3 Hall]. rewrite H3.
    apply IH; [lia | exact Hall].
Qed.

(** A lead whose first and last names are absent from the record, empty or
    made of white space only (any white space [str.strip] removes) is
    greeted as "Sir/Madam". *)
Theorem greeting_falls_back_on_blank_name lead info :
  blank (field_shown "First_Name" info) = true ->
  blank (field_shown "Last_Name" info) = true ->
  _generate_voice_response lead info
  = [Say (aditi "Namaste Sir/Madam! Main aapko call kar raha hoon. Kya aap mujhe 2 minute de sakte hain?");
     gather_speech lead;
     Say (aditi "Thank you for your time. Goodbye!");
     Hangup].
Proof.
  unfold blank, _generate_voice_response. intros Hfirst Hlast.
  set (first_name := field_shown "First_Name" info) in *.
  set (last_name := field_shown "Last_Name" info) in *.
  assert (Hstrip : strip (first_name ++ " " ++ last_name) = "").
  { unfold strip. rewrite !list_ascii_of_string_app.
    rewrite (strip_front_blank _ _ _ (le_n _) Hfirst).
    change (list_ascii_of_string " ") with [" "%char]. cbn [app].
    change (strip_front false (" "%char :: list_ascii_of_string last_name))
      with (strip_front false (list_ascii_of_string last_name)).
    rewrite <- (app_nil_r (list_ascii_of_string last_name)).
    rewrite (strip_front_blank _ _ _ (le_n _) Hlast).
    reflexivity. }
  rewrite Hstrip. reflexivity.
Qed.

(** *** What a callback can do to the store *)

Lemma final_qualification_states env lead w :
  conversation_states (snd (_process_final_qualification env lead w))
  = conversation_states w
  \/ conversation_states (snd (_process_final_qualification env lead w))
     = store_del lead (conversation_states w).
Proof.
  unfold _process_final_qualification. unfold_run.
  repeat split_run; auto.
Qed.

Lemma recording_states form w :
  conversation_states (snd (handle_recording form w)) = conversation_states w.
Proof.
  unfold handle_recording. unfold_run. repeat split_run; reflexivity.
Qed.

(** One callback leaves the store as it is, or adds a fresh entry for the
    lead it is about, or appends a user turn to that lead's entry, or
    deletes that lead's entry. *)
Lemma dispatch_states env r w :
  let s := conversation_states w in
  let s' := conversation_states (snd (dispatch env r w)) in
  s' = s
  \/ (exists lead sid,
        target r w = Some lead /\ store_get lead s = None
        /\ s' = (s ++ [(lead, fresh_state env lead sid)])%list)
  \/ (exists l st t,
        target r w = Some l /\ store_get l s = Some st
        /\ speaker t = "user"
        /\ s' = store_set l (append_turn t st) s)
  \/ (exists lead, target r w = Some lead /\ s' = store_del lead s).
Proof.
  destruct r as [lead form | form | form | form]; cbn [dispatch target]; cbv zeta.
  - rewrite voice_states.
    destruct (store_get lead (conversation_states w)) eqn:Hget; [auto |].
    right. left. exists lead, (form_get "CallSid" form). auto.
  - destruct (invalid_lead (form_get "lead_id" form) (conversation_states w))
      eqn:Hinv.
    + rewrite (gather_invalid env form w Hinv). auto.
    + unfold invalid_lead in Hinv.
      destruct (form_get "lead_id" form) as [l |] eqn:Hf; [| discriminate].
      apply orb_false_iff in Hinv as [Hne Hmem].
      apply String.eqb_neq in Hne. unfold store_mem in Hmem.
      destruct (store_get l (conversation_states w)) as [st |] eqn:Hl;
        [| discriminate].
      destruct (gather_known env form w l st Hf Hne Hl) as [-> _].
      right. right. left. exists l, st, (user_turn env form). auto.
  - rewrite status_run. cbn [snd]. cbv zeta.
    destruct (find_lead _ _) as [lead |] eqn:Hfind; [| auto].
    destruct (negb (lead =? "") && _); [| auto].
    match goal with
    | |- context [_process_final_qualification env lead ?w1] =>
        destruct (final_qualification_states env lead w1) as [-> | ->]
    end; [auto |].
    right. right. right. exists lead. auto.
  - rewrite recording_states. auto.
Qed.

(** A callback about one lead does not touch the entry of any other lead:
    whatever [k] the callback is not about is looked up after it as
    before. *)
Theorem callbacks_leave_other_leads_alone env r w k :
  target r w <> Some k ->
  store_get k (conversation_states (snd (dispatch env r w)))
  = store_get k (conversation_states w).
Proof.
  intros Hk.
  destruct (dispatch_states env r w)
    as [-> | [(lead & sid & Ht & Hnone & ->)
       | [(l & st & t & Ht & Hs & _ & ->) | (lead & Ht & ->)]]].
  - reflexivity.
  - assert (Hne : k <> lead) by congruence.
    rewrite <- (store_set_absent lead (fresh_state env lead sid) _ Hnone).
    apply store_get_set_other, Hne.
  - apply store_get_set_other. congruence.
  - apply store_get_del_other. congruence.
Qed.

(** *** Invariants of the store *)

Lemma nodup_snoc {A} (l : list A) x : NoDup l -> ~ In x l -> NoDup (l ++ [x]).
Proof.
  induction l as [| a l IH]; cbn [app]; intros Hnd Hx.
  - constructor; [intros [] | constructor].
  - inversion Hnd as [| a' l' Ha Hl]; subst. constructor.
    + rewrite in_app_iff. intros [H | [H | []]]; [contradiction |].
      apply Hx. left. symmetry. exact H.
    + apply IH; [exact Hl |]. intros H. apply Hx. right. exact H.
Qed.

Lemma store_set_keys l v s st :
  store_get l s = Some st -> map fst (store_set l v s) = map fst s.
Proof.
  induction s as [|[k' v'] s IH]; cbn [store_get store_set map fst];
    [discriminate |].
  destruct (k' =? l); [reflexivity |].
  intros H. cbn [map fst]. rewrite (IH H). reflexivity.
Qed.

Lemma store_set_forall (P : string * ConversationState -> Prop) l v s st :
  store_get l s = Some st -> Forall P s -> P (l, v) ->
  Forall P (store_set l v s).
Proof.
  intros Hs Hall Hv. revert Hs.
  induction Hall as [| [k' v'] s Hk Hall IH]; cbn [store_get store_set];
    [discriminate |].
  destruct (String.eqb_spec k' l) as [-> | Hne].
  - intros _. constructor; assumption.
  - intros H. constructor; [exact Hk | apply IH, H].
Qed.

Lemma store_del_forall (P : string * ConversationState -> Prop) l s :
  Forall P s -> Forall P (store_del l s).
Proof.
  rewrite !Forall_forall. intros H x Hx. apply H.
  apply (store_del_keys_incl l s x Hx).
Qed.

Lemma store_del_nodup l s :
  NoDup (map fst s) -> NoDup (map fst (store_del l s)).
Proof.
  induction s as [|[k' v'] s IH]; cbn [store_del map fst]; [auto |].
  intros Hnd. inversion Hnd as [| a l' Ha Hl]; subst.
  destruct (k' =? l); [exact Hl |].
  cbn [map fst]. constructor; [| apply IH, Hl].
  intros Hin. apply Ha. apply in_map_iff in Hin as ([k v] & Hk & Hin).
  cbn in Hk. subst k. apply in_map_iff.
  exists (k', v). split; [reflexivity | apply (store_del_keys_incl l s _ Hin)].
Qed.

Lemma dispatch_keeps_store_ok env r w :
  store_ok (conversation_states w) ->
  store_ok (conversation_states (snd (dispatch env r w))).
Proof.
  intros (Hnd & Hfiled & Hcreated).
  destruct (dispatch_states env r w)
    as [-> | [(lead & sid & _ & Hnone & ->)
       | [(l & st & t & _ & Hs & Ht & ->) | (lead & _ & ->)]]].
  - repeat split; assumption.
  - repeat split.
    + rewrite map_app. apply nodup_snoc; [exact Hnd |].
      apply store_get_none_iff, Hnone.
    + apply Forall_app. split; [exact Hfiled |].
      constructor; [reflexivity | constructor].
    + apply Forall_app. split; [exact Hcreated |].
      constructor; [| constructor]. repeat split. constructor.
  - pose proof (store_get_in l _ st Hs) as Hin.
    rewrite Forall_forall in Hfiled, Hcreated.
    pose proof (Hfiled _ Hin) as Hf. pose proof (Hcreated _ Hin) as (Hc1 & Hc2 & Hc3).
    cbn [fst snd] in *.
    repeat split.
    + rewrite (store_set_keys l _ _ st Hs). exact Hnd.
    + apply (store_set_forall _ l _ _ st Hs);
        [apply Forall_forall, Hfiled | exact Hf].
    + apply (store_set_forall _ l _ _ st Hs);
        [apply Forall_forall, Hcreated |].
      repeat split; cbn [snd append_turn current_step qualification_questions
                         conversation_history]; try assumption.
      apply Forall_app. split; [exact Hc3 | constructor; [exact Ht | constructor]].
  - repeat split;
      [apply store_del_nodup | apply store_del_forall | apply store_del_forall];
      assumption.
Qed.

Lemma serve_keeps_store_ok rs : forall w,
  store_ok (conversation_states w) ->
  store_ok (conversation_states (serve rs w)).
Proof.
  induction rs as [| [env r] rs IH]; intros w Hok; cbn [serve];
    [exact Hok |].
  apply IH, dispatch_keeps_store_ok, Hok.
Qed.

(** Started with an empty store, after any callbacks whatever, the store
    has at most one entry per lead and every entry records the lead it is
    filed under. *)
Theorem entries_filed_under_own_lead rs j :
  NoDup (map fst (conversation_states (serve rs (mkWorld [] j))))
  /\ Forall filed_under_own_lead
       (conversation_states (serve rs (mkWorld [] j))).
Proof.
  destruct (serve_keeps_store_ok rs (mkWorld [] j)) as (Hnd & Hfiled & _).
  - repeat split; constructor.
  - split; assumption.
Qed.

(** Started with an empty store, after any callbacks whatever, every entry
    is still at step "greeting" and its history holds user turns only: no
    handler ever moves an entry to "completed" or records what the agent
    said, so the "not completed" guard of the fallback always passes. *)
Theorem entries_stay_at_greeting rs j :
  Forall as_created (conversation_states (serve rs (mkWorld [] j))).
Proof.
  destruct (serve_keeps_store_ok rs (mkWorld [] j)) as (_ & _ & Hcreated).
  - repeat split; constructor.
  - exact Hcreated.
Qed.

(** *** CRM writes *)

(** One callback writes a verdict to the CRM at most once. *)
Theorem callback_writes_crm_at_most_once env r w :
  exists new,
    journal (snd (dispatch env r w)) = (journal w ++ new)%list
    /\ length (terminal_writes new) <= 1.
Proof.
  destruct r as [lead form | form | form | form]; cbn [dispatch];
    [ unfold handle_voice_webhook
    | unfold handle_gather, _generate_follow_up_response
    | unfold handle_call_status, _process_final_qualification
    | unfold handle_recording ];
    unfold_run; repeat split_run;
    rewrite <- ?app_assoc; eexists; (split; [reflexivity |]);
    cbn; lia.
Qed.

Lemma find_lead_after_del sid s lead :
  NoDup (map fst s) ->
  NoDup (map (fun kv => call_sid (snd kv)) s) ->
  find_lead sid s = Some lead ->
  find_lead sid (store_del lead s) = None.
Proof.
  induction s as [|[k v] s IH]; cbn [find_lead store_del map fst snd];
    [discriminate |].
  intros Hkeys Hsids.
  inversion Hkeys as [| a l Hk Hkeys']; subst.
  inversion Hsids as [| a l Hv Hsids']; subst.
  destruct (option_string_eqb (call_sid v) sid) eqn:E.
  - intros [= <-]. rewrite String.eqb_refl.
    apply option_string_eqb_spec in E.
    apply find_lead_none_iff, Forall_forall. intros [k' v'] Hin Heq.
    apply Hv. apply in_map_iff. exists (k', v'). cbn [snd] in *.
    split; [congruence | exact Hin].
  - intros Hfind.
    destruct (find_lead_some sid s lead Hfind) as (before & st & after & Hs & _).
    assert (Hin : In lead (map fst s)).
    { rewrite Hs, map_app, in_app_iff. right. left. reflexivity. }
    destruct (String.eqb_spec k lead) as [-> | Hne]; [contradiction |].
    cbn [find_lead]. rewrite E. apply IH; assumption.
Qed.

(** The fallback is not repeated.  With one entry per lead and one lead per
    call, once a status-completed callback has finalized a call, a second
    status callback for that call does nothing but log, whatever the
    collaborators would answer: the CRM holds one write. *)
Theorem status_completed_twice_writes_once env env' form w lead st g :
  NoDup (map fst (conversation_states w)) ->
  NoDup (map (fun kv => call_sid (snd kv)) (conversation_states w)) ->
  find_lead (form_get "CallSid" form) (conversation_states w) = Some lead ->
  lead <> "" ->
  form_get "CallStatus" form = Some "completed" ->
  store_get lead (conversation_states w) = Some st ->
  current_step st <> "completed" ->
  process_final_qualification env lead st = Returned g ->
  truthy (is_final g) = true ->
  verdict_write_outcome env lead g (conversation_history st) = Returned tt ->
  serve [(env, StatusChanged form); (env', StatusChanged form)] w
  = mkWorld (store_del lead (conversation_states w))
      (journal w
       ++ [status_log form;
           GptProcessFinalQualification lead st;
           verdict_write lead g (conversation_history st);
           LoggerCallEnd lead (get_or (qualification_result g) "unknown");
           status_log form]).
Proof.
  intros Hkeys Hsids Hfind Hne Hstatus Hs Hstep Hgpt Hfinal Hcrm.
  cbn [serve dispatch]. rewrite (status_run env form w). cbn [snd]. cbv zeta.
  rewrite Hfind, Hstatus.
  pose proof Hne as Hne'. apply String.eqb_neq in Hne'. rewrite Hne'.
  cbn [negb andb option_string_eqb]. rewrite String.eqb_refl.
  rewrite (final_qualification_success env lead
             (mkWorld (conversation_states w) (journal w ++ [status_log form]))
             st g Hs Hstep Hgpt Hfinal Hcrm).
  cbn [snd]. rewrite status_run. cbn [snd conversation_states journal].
  cbv zeta. rewrite (find_lead_after_del _ _ _ Hkeys Hsids Hfind).
  rewrite <- !app_assoc. reflexivity.
Qed.

End HandlerConduct.

(* ===================================================================== *)
(** ** The theorems above, at work                                        *)
(* ===================================================================== *)

Section AtWork.

Import Webhook.
Import Conduct.
Import Scenario.
Import Cases.
Local Open Scope string_scope.

Lemma format_leading_zero_eleven_witness :
  Call._format_phone_number (fun _ => false) (Call.lit "0412-345 6789")
  = Call.lit "+924123456789".
Proof.
  rewrite (format_leading_zero_eleven (fun _ => false)
             (Call.lit "0412-345 6789") eq_refl eq_refl).
  reflexivity.
Defined.

Lemma get_call_logs_rows_witness :
  exists rows,
    Manager.get_call_logs manager_up None
    = (Manager.Ok rows, [Manager.CallsList 50])
    /\ length rows = 2
    /\ map Manager.l_sid rows = [Call.lit "CA1"; Call.lit "CA2"]
    /\ map Manager.l_from_ rows
       = [Call.lit "(555) 000-1111"; Call.lit "(555) 000-1111"].
Proof.
  exact (get_call_logs_rows manager_up None [call_ca1; call_ca2] eq_refl).
Defined.

Lemma replies_speak_then_hang_up_witness :
  speaks_then_hangs_up
    (_generate_voice_response "L1"
       [("First_Name", Text "Asha"); ("Last_Name", Text "Rao")]).
Proof.
  exact (replies_speak_then_hang_up env_final (VoiceStarted "L1" voice_form)
           world0 _ _ eq_refl eq_refl).
Defined.

Lemma status_callback_noop_witness :
  conversation_states
    (snd (handle_call_status env_final ringing_form world_started))
  = conversation_states world_started.
Proof.
  assert (H : form_get "CallStatus" ringing_form <> Some "completed")
    by (vm_compute; discriminate).
  rewrite (status_callback_noop env_final ringing_form world_started
             (or_introl H)).
  reflexivity.
Defined.

Lemma status_completed_finalizes_witness :
  conversation_states
    (snd (handle_call_status env_final status_form world_started))
  = [].
Proof.
  destruct (status_completed_finalizes env_final status_form world_started
              "L1" started verdict_qualified
              eq_refl ltac:(discriminate) eq_refl eq_refl
              ltac:(discriminate) eq_refl eq_refl eq_refl)
    as (Hrun & _ & _).
  rewrite Hrun. reflexivity.
Defined.

Lemma status_completed_without_verdict_witness :
  conversation_states
    (snd (handle_call_status env_ask status_form world_started))
  = conversation_states world_started.
Proof.
  rewrite (status_completed_without_verdict env_ask status_form world_started
             "L1" started verdict_ask_budget
             eq_refl ltac:(discriminate) eq_refl eq_refl
             ltac:(discriminate) eq_refl eq_refl).
  reflexivity.
Defined.

Lemma gather_continues_witness :
  fst (handle_gather env_ask gather_form world_started)
  = Returned
      (XmlResponse
         [Say (aditi "What is your budget?");
          gather_speech "L1";
          Say (aditi "Thank you for your time. Goodbye!");
          Hangup]).
Proof.
  rewrite (gather_continues env_ask gather_form world_started "L1" started
             verdict_ask_budget
             eq_refl ltac:(discriminate) eq_refl eq_refl eq_refl).
  reflexivity.
Defined.

Lemma gather_final_qualified_witness :
  terminal_writes
    (journal (snd (handle_gather env_final gather_form world_started)))
  = [CrmMarkLeadQualified "L1" "Interested, has budget"
       [user_turn env_final gather_form]].
Proof.
  rewrite (gather_final_qualified env_final gather_form world_started "L1"
             started verdict_qualified
             eq_refl ltac:(discriminate) eq_refl eq_refl eq_refl eq_refl
             eq_refl).
  reflexivity.
Defined.

Lemma gather_final_other_verdict_witness :
  terminal_writes
    (journal (snd (handle_gather env_declined gather_form world_started)))
  = [CrmMarkLeadDisqualified "No specific reason"
       [user_turn env_declined gather_form]].
Proof.
  rewrite (gather_final_other_verdict env_declined gather_form world_started
             "L1" started verdict_declined
             eq_refl ltac:(discriminate) eq_refl eq_refl eq_refl
             ltac:(discriminate) eq_refl).
  reflexivity.
Defined.

Lemma gather_failure_keeps_turn_witness :
  exists calls,
    handle_gather env_gpt_down gather_form world_started
    = (Returned (TwimlObject (_generate_error_response "An error occurred")),
       mkWorld
         (store_set "L1" (append_turn (user_turn env_gpt_down gather_form)
                            started)
            (conversation_states world_started))
         (journal world_started
          ++ gather_log gather_form :: calls
          ++ [LoggerError "Error handling gather input: timeout"]))
    /\ forallb is_collaborator_call calls = true.
Proof.
  exact (gather_failure_keeps_turn env_gpt_down gather_form world_started
           "L1" started "timeout"
           eq_refl ltac:(discriminate) eq_refl (or_introl eq_refl)).
Defined.

Lemma gather_empty_lead_id_rejected_witness :
  fst (handle_gather env_final empty_lead_form world_started)
  = Returned (TwimlObject (_generate_error_response "Invalid lead ID")).
Proof.
  rewrite (gather_empty_lead_id_rejected env_final empty_lead_form
             world_started eq_refl).
  reflexivity.
Defined.

Lemma voice_greets_resolved_lead_witness :
  fst (handle_voice_webhook env_final "L1" voice_form world0)
  = Returned
      (XmlResponse
         (_generate_voice_response "L1"
            [("First_Name", Text "Asha"); ("Last_Name", Text "Rao")])).
Proof.
  rewrite (voice_greets_resolved_lead env_final "L1" voice_form world0
             [("First_Name", Text "Asha"); ("Last_Name", Text "Rao")]
             eq_refl ltac:(discriminate)).
  reflexivity.
Defined.

Lemma greeting_falls_back_on_blank_name_witness :
  _generate_voice_response "L1" nameless_lead
  = [Say (aditi "Namaste Sir/Madam! Main aapko call kar raha hoon. Kya aap mujhe 2 minute de sakte hain?");
     gather_speech "L1";
     Say (aditi "Thank you for your time. Goodbye!");
     Hangup].
Proof.
  exact (greeting_falls_back_on_blank_name "L1" nameless_lead
           eq_refl eq_refl).
Defined.

Lemma callbacks_leave_other_leads_alone_witness :
  store_get "L2"
    (conversation_states
       (snd (dispatch env_final (SpeechGathered gather_form) world_two)))
  = store_get "L2" (conversation_states world_two).
Proof.
  exact (callbacks_leave_other_leads_alone env_final
           (SpeechGathered gather_form) world_two "L2"
           ltac:(discriminate)).
Defined.

Lemma status_completed_twice_writes_once_witness :
  terminal_writes
    (journal
       (serve [(env_final, StatusChanged status_form);
               (env_declined, StatusChanged status_form)]
              world_started))
  = [CrmMarkLeadQualified "L1" "Interested, has budget" []].
Proof.
  rewrite (status_completed_twice_writes_once env_final env_declined
             status_form world_started "L1" started verdict_qualified
             ltac:(constructor; [intros [] | constructor])
             ltac:(constructor; [intros [] | constructor])
             eq_refl ltac:(discriminate) eq_refl eq_refl
             ltac:(discriminate) eq_refl eq_refl eq_refl).
  reflexivity.
Defined.

End AtWork.
